(** * Verification of the Elasticsearch benchmark harness

    Shallow embedding of [run_elasticsearch.py] (query set generator and the
    top-level runner [main]) and of [src/preprocessor.py], together with the
    latency and throughput statistics of the indexer the runner drives. *)

From Stdlib Require Import Ascii String QArith Lqa Lia ZArith Sorted.
From stdpp Require Import gmap strings list pretty.

Set Warnings "-register-all".

(** ** Latency statistics of the Search Benchmark Driver *)

Module Stats.

Local Open Scope Q_scope.

(** Latencies are wall-clock milliseconds; the embedding takes them as
    rationals. *)
Definition latency := Q.

Fixpoint insert_sorted (x : Q) (l : list Q) : list Q :=
  match l with
  | [] => [x]
  | y :: l' => if Qle_bool x y then x :: y :: l' else y :: insert_sorted x l'
  end.

Fixpoint sort_latencies (l : list Q) : list Q :=
  match l with
  | [] => []
  | x :: l' => insert_sorted x (sort_latencies l')
  end.

Definition at_index (s : list Q) (i : nat) : Q := nth i s 0.

Definition qmin (a b : Q) : Q := if Qle_bool a b then a else b.
Definition qmax (a b : Q) : Q := if Qle_bool a b then b else a.

Definition latency_min (l : list Q) : Q :=
  match l with
  | [] => 0
  | x :: l' => fold_left qmin l' x
  end.

Definition latency_max (l : list Q) : Q :=
  match l with
  | [] => 0
  | x :: l' => fold_left qmax l' x
  end.

Definition latency_sum (l : list Q) : Q := fold_left Qplus l 0.

(** Modelled from the spec: the mean of the indexer's [batch_search]
    (section 4.4), zero when there is no latency. *)
Definition mean (l : list Q) : Q :=
  match l with
  | [] => 0
  | _ => latency_sum l / inject_Z (Z.of_nat (length l))
  end.

(** Modelled from the spec: the median of the indexer's [batch_search]
    (section 4.4, "standard statistical definitions"): the middle element of
    the sorted sequence, or the average of the two middle elements. *)
Definition median (l : list Q) : Q :=
  let s := sort_latencies l in
  let n := length s in
  match n with
  | O => 0
  | _ => if Nat.even n
         then (at_index s (n / 2 - 1) + at_index s (n / 2)) / 2
         else at_index s (n / 2)
  end.

(** Modelled from the spec: the two percentile methods section 4.4 names for
    the indexer's [batch_search], nearest-rank and linear interpolation. *)
Inductive percentile_method := NearestRank | LinearInterpolation.

Definition nearest_rank (p : nat) (s : list Q) : Q :=
  let n := length s in
  at_index s ((p * n + 99) / 100 - 1).

Definition linear_interpolation (p : nat) (s : list Q) : Q :=
  let n := length s in
  let k := ((n - 1) * p)%nat in
  let lo := (k / 100)%nat in
  let hi := Nat.min (lo + 1) (n - 1) in
  let frac := inject_Z (Z.of_nat (k mod 100)) / 100 in
  at_index s lo + frac * (at_index s hi - at_index s lo).

Definition percentile (m : percentile_method) (p : nat) (l : list Q) : Q :=
  match l with
  | [] => 0
  | _ =>
    match m with
    | NearestRank => nearest_rank p (sort_latencies l)
    | LinearInterpolation => linear_interpolation p (sort_latencies l)
    end
  end.

(** Modelled from the spec: the SearchRun of section 3, with the field names
    [main] reads from the statistics dictionary. *)
Record SearchRun := {
  latencies_ms : list Q;
  mean_latency_ms : Q;
  median_latency_ms : Q;
  p95_latency_ms : Q;
  p99_latency_ms : Q;
  min_latency_ms : Q;
  max_latency_ms : Q
}.

(** Modelled from the spec: the aggregates that [batch_search] derives from
    the recorded latencies (sections 3 and 4.4). *)
Definition search_stats (m : percentile_method) (l : list Q) : SearchRun :=
  {| latencies_ms := l;
     mean_latency_ms := mean l;
     median_latency_ms := median l;
     p95_latency_ms := percentile m 95 l;
     p99_latency_ms := percentile m 99 l;
     min_latency_ms := latency_min l;
     max_latency_ms := latency_max l |}.

Definition sample : list Q := [10; 20; 30; 40; 50; 60; 70; 80; 90; 100].

End Stats.

(** ** Throughput of the Indexing Driver *)

Module Throughput.

Local Open Scope Q_scope.

(** Modelled from the spec: the throughput of the indexer's
    [index_documents] (section 4.3, step 3), which is reported as a sentinel
    when the elapsed time is below the minimum-elapsed floor. *)
Inductive throughput :=
| Undefined
| DocsPerSecond (rate : Q).

(** Modelled from the spec: [docs_per_second = total_docs / elapsed_seconds]
    with the guard of section 4.3 against a near-zero elapsed time. *)
Definition docs_per_second (min_elapsed : Q) (total_docs : nat) (elapsed_seconds : Q)
  : throughput :=
  if Qle_bool min_elapsed elapsed_seconds
  then DocsPerSecond (inject_Z (Z.of_nat total_docs) / elapsed_seconds)
  else Undefined.

(** Modelled from the spec: the IndexingRun of section 3. *)
Record IndexingRun := {
  total_docs : nat;
  elapsed : Q;
  rate : throughput
}.

(** Modelled from the spec: the result of [index_documents] on a batch of
    documents submitted in the given time. *)
Definition indexing_run {Document : Type} (min_elapsed : Q)
    (docs : list Document) (elapsed_seconds : Q) : IndexingRun :=
  {| total_docs := length docs;
     elapsed := elapsed_seconds;
     rate := docs_per_second min_elapsed (length docs) elapsed_seconds |}.

End Throughput.

(** ** The query set generator of [run_elasticsearch.py] *)

Module Queries.

Local Open Scope string_scope.

(** The list literal bound to [queries] in [generate_test_queries]. *)
Definition queries : list string := [
  (* Technology (common terms) *)
  "artificial intelligence machine learning";
  "software development programming";
  "data science analytics";
  "cloud computing infrastructure";
  "cybersecurity network protection";
  "quantum computing research";
  (* Science (moderate frequency) *)
  "climate change environment";
  "space exploration technology";
  "medical research health";
  "renewable energy solar";
  "genetic engineering biology";
  (* Politics/Economy (common terms) *)
  "economic policy government";
  "election campaign politics";
  "international relations diplomacy";
  (* General (mixed) *)
  "education system reform";
  "transportation infrastructure";
  "financial markets investment";
  "social media platform";
  "healthcare insurance coverage";
  (* Single word queries *)
  "technology";
  "science";
  "education";
  (* Rare terms (likely low frequency) *)
  "quantum entanglement photon";
  "blockchain cryptocurrency decentralized"
].

(** The term-frequency labels that the comments of the literal give to its
    groups of queries. *)
Inductive term_frequency :=
| CommonTerms
| ModerateFrequency
| Mixed
| SingleWord
| RareTerms.

Definition query_groups : list (string * term_frequency * list string) := [
  ("Technology", CommonTerms,
   ["artificial intelligence machine learning";
    "software development programming";
    "data science analytics";
    "cloud computing infrastructure";
    "cybersecurity network protection";
    "quantum computing research"]);
  ("Science", ModerateFrequency,
   ["climate change environment";
    "space exploration technology";
    "medical research health";
    "renewable energy solar";
    "genetic engineering biology"]);
  ("Politics/Economy", CommonTerms,
   ["economic policy government";
    "election campaign politics";
    "international relations diplomacy"]);
  ("General", Mixed,
   ["education system reform";
    "transportation infrastructure";
    "financial markets investment";
    "social media platform";
    "healthcare insurance coverage"]);
  ("Single word queries", SingleWord,
   ["technology"; "science"; "education"]);
  ("Rare terms", RareTerms,
   ["quantum entanglement photon";
    "blockchain cryptocurrency decentralized"])
].

Definition frequency_of (g : string * term_frequency * list string) : term_frequency :=
  snd (fst g).

Definition queries_of (g : string * term_frequency * list string) : list string :=
  snd g.

Definition term_frequency_eqb (a b : term_frequency) : bool :=
  match a, b with
  | CommonTerms, CommonTerms
  | ModerateFrequency, ModerateFrequency
  | Mixed, Mixed
  | SingleWord, SingleWord
  | RareTerms, RareTerms => true
  | _, _ => false
  end.

Definition queries_labelled (f : term_frequency) : list string :=
  flat_map queries_of
    (List.filter (fun g => term_frequency_eqb (frequency_of g) f) query_groups).

(** Words of a query, as [str.split()] gives them: maximal runs of
    characters that are not white space. *)
Definition is_space (c : ascii) : bool :=
  let n := nat_of_ascii c in
  ((9 <=? n)%nat && (n <=? 13)%nat) || ((28 <=? n)%nat && (n <=? 32)%nat).

Fixpoint split_words (cur : string) (s : string) : list string :=
  match s with
  | EmptyString => match cur with EmptyString => [] | _ => [cur] end
  | String c s' =>
    if is_space c
    then match cur with
         | EmptyString => split_words EmptyString s'
         | _ => cur :: split_words EmptyString s'
         end
    else split_words (cur +:+ String c EmptyString) s'
  end.

Definition words (s : string) : list string := split_words EmptyString s.

Definition word_count (s : string) : nat := length (words s).

Definition has_word_count (n : nat) (qs : list string) : bool :=
  existsb (fun q => Nat.eqb (word_count q) n) qs.

End Queries.

(** ** The top-level runner [main] of [run_elasticsearch.py] *)

Module Runner.

Local Open Scope string_scope.

(** Python values that flow through [main]: the statistics dictionaries the
    indexer returns and the JSON documents [main] builds from them. *)
Inductive pyval :=
| PNone
| PBool (b : bool)
| PInt (z : Z)
| PFloat (q : Q)
| PStr (s : string)
| PList (l : list pyval)
| PDict (kv : list (string * pyval)).

(** Exceptions, by the [except] clause of [main] that catches them.
    [NotAnException] stands for the classes outside [Exception]
    (KeyboardInterrupt, SystemExit), which no clause of [main] catches. *)
Inductive exn_kind :=
| FileNotFoundError
| ConnectionError
| OtherException
| NotAnException.

Record exn := {
  exn_kind_of : exn_kind;
  exn_class : string;
  exn_text : string
}.

Inductive result (A : Type) :=
| Ok (a : A)
| Err (e : exn).
Arguments Ok {A} a.
Arguments Err {A} e.

Definition raised {A} (r : result A) : option exn :=
  match r with Ok _ => None | Err e => Some e end.

(** Addresses of the list objects [main] creates. *)
Definition loc := nat.

(** Calls that leave [main]: to the operating system, to the indexer module
    and to the JSON writer. *)
Inductive call :=
| Makedirs (path : string)
| PathExists (path : string) (answer : bool)
| NewIndexer (auto_start_docker : bool)
| LoadJsonl (path : string) (limit : nat)
| CreateIndex (name : string)
| IndexDocuments (name : string) (docs : pyval)
| BatchSearch (name : string) (queries_ref : loc) (queries : list string) (size : nat)
| GetIndexStats (name : string)
| JsonDump (path : string) (payload : pyval).

(** A printed line: literal text and formatted values. *)
Inductive fragment :=
| Lit (s : string)
| Fmt (spec : string) (v : pyval).

Inductive event :=
| Print (line : list fragment)
| Call (c : call) (failure : option exn)
| Throw (e : exn)
| PrintExc (e : exn).

(** How a block of statements ends: it runs to its end with a value, it
    executes [return], or it raises. *)
Inductive outcome (A : Type) :=
| Val (a : A)
| Return (code : Z)
| Raise (e : exn).
Arguments Val {A} a.
Arguments Return {A} code.
Arguments Raise {A} e.

(** What [main()] gives to its caller. *)
Inductive main_result :=
| Returned (code : Z)
| ReturnedNone
| Uncaught (e : exn).

(** The modules [main] imports and the operating system, over the state
    [World] of everything outside the script.  [batch_search] receives the
    list object of the queries and gives back its contents when it returns:
    a callee can mutate a list it is passed. *)
Class Collaborators (World : Type) := {
  os_makedirs : string -> World -> result unit * World;
  os_path_exists : string -> World -> bool;
  ElasticsearchIndexer : bool -> World -> result unit * World;
  load_jsonl_data : string -> nat -> World -> result pyval * World;
  create_index : string -> World -> result unit * World;
  index_documents : string -> pyval -> World -> result pyval * World;
  batch_search :
    string -> list string -> nat -> World -> result (pyval * pyval) * list string * World;
  get_index_stats : string -> World -> result pyval * World;
  json_dump : string -> pyval -> World -> result unit * World
}.

Record state (World : Type) := {
  heap : gmap loc (list string);
  world : World;
  log : list event
}.
Arguments heap {World} s.
Arguments world {World} s.
Arguments log {World} s.

Definition M (World A : Type) : Type := state World -> outcome A * state World.

Global Instance M_ret {World} : MRet (M World) :=
  fun A (a : A) st => (Val a, st).

Global Instance M_bind {World} : MBind (M World) :=
  fun A B (f : A -> M World B) (m : M World A) st =>
    match m st with
    | (Val a, st') => f a st'
    | (Return c, st') => (Return c, st')
    | (Raise e, st') => (Raise e, st')
    end.

Section Script.

Context {World : Type} `{Collaborators World}.

Local Abbreviation M := (M World).

Definition emit (ev : event) : M unit :=
  fun st => (Val tt, {| heap := heap st; world := world st; log := log st ++ [ev] |}).

Definition print (s : string) : M unit := emit (Print [Lit s]).

Definition printf (line : list fragment) : M unit := emit (Print line).

Definition return_ {A} (code : Z) : M A := fun st => (Return code, st).

Definition throw {A} (e : exn) : M A :=
  fun st => (Raise e, {| heap := heap st; world := world st; log := log st ++ [Throw e] |}).

(** A call to a collaborator: the call and its failure, if any, are logged. *)
Definition invoke {A} (c : call) (f : World -> result A * World) : M A :=
  fun st =>
    let '(r, w) := f (world st) in
    let st' := {| heap := heap st; world := w; log := log st ++ [Call c (raised r)] |} in
    match r with
    | Ok a => (Val a, st')
    | Err e => (Raise e, st')
    end.

Definition path_exists (path : string) : M bool :=
  fun st =>
    let b := os_path_exists path (world st) in
    (Val b, {| heap := heap st; world := world st;
               log := log st ++ [Call (PathExists path b) None] |}).

Definition read_list (r : loc) : M (list string) :=
  fun st => (Val (default [] (heap st !! r)), st).

Definition call_batch_search (name : string) (r : loc) (size : nat) : M (pyval * pyval) :=
  fun st =>
    let qs := default [] (heap st !! r) in
    let '(res, qs', w) := batch_search name qs size (world st) in
    let st' := {| heap := <[r := qs']> (heap st); world := w;
                  log := log st ++ [Call (BatchSearch name r qs size) (raised res)] |} in
    match res with
    | Ok v => (Val v, st')
    | Err e => (Raise e, st')
    end.

(** The value a dictionary holds for a key. *)
Fixpoint dict_get (key : string) (kv : list (string * pyval)) : option pyval :=
  match kv with
  | [] => None
  | (k, v) :: kv' => if String.eqb k key then Some v else dict_get key kv'
  end.

(** The name of the type of a value, as the interpreter's messages print
    it. *)
Definition type_name (v : pyval) : string :=
  match v with
  | PNone => "NoneType"
  | PBool _ => "bool"
  | PInt _ => "int"
  | PFloat _ => "float"
  | PStr _ => "str"
  | PList _ => "list"
  | PDict _ => "dict"
  end.

(** The double quote. *)
Definition dq : string := String (ascii_of_nat 34) "".

(** [str(KeyError(key))] is [repr(key)]: for a key of letters, digits and
    underscores, as the keys of [main] are, the key between single quotes. *)
Definition KeyError (key : string) : exn :=
  {| exn_kind_of := OtherException; exn_class := "KeyError";
     exn_text := "'" +:+ key +:+ "'" |}.

Definition TypeError (text : string) : exn :=
  {| exn_kind_of := OtherException; exn_class := "TypeError"; exn_text := text |}.

Definition ValueError (text : string) : exn :=
  {| exn_kind_of := OtherException; exn_class := "ValueError"; exn_text := text |}.

Definition OverflowError : exn :=
  {| exn_kind_of := OtherException; exn_class := "OverflowError";
     exn_text := "int too large to convert to float" |}.

(** [v[key]] for a string [key]: a dictionary is searched, a string or a
    list takes integer indices only (the text for a string is that of
    Python 3.11 and later), and no other value that flows through [main] can
    be subscripted. *)
Definition subscript (v : pyval) (key : string) : M pyval :=
  match v with
  | PDict kv =>
    match dict_get key kv with
    | Some x => mret x
    | None => throw (KeyError key)
    end
  | PStr _ => throw (TypeError "string indices must be integers, not 'str'")
  | PList _ => throw (TypeError "list indices must be integers or slices, not str")
  | _ => throw (TypeError ("'" +:+ type_name v +:+ "' object is not subscriptable"))
  end.

(** An integer converts to a float unless it rounds, to the nearest double
    with ties to even, to [2^1024] or beyond. *)
Definition float_overflows (z : Z) : bool := (2 ^ 1024 - 2 ^ 970 <=? Z.abs z)%Z.

Definition overflows (v : pyval) : bool :=
  match v with
  | PInt z => float_overflows z
  | _ => false
  end.

(** A replacement field [{v:spec}] with a float presentation type: an
    integer is converted to a float first. *)
Definition format_float (spec : string) (v : pyval) : M fragment :=
  match v with
  | PBool _ | PFloat _ => mret (Fmt spec v)
  | PInt z => if float_overflows z then throw OverflowError else mret (Fmt spec v)
  | PStr _ => throw (ValueError "Unknown format code 'f' for object of type 'str'")
  | _ =>
    throw (TypeError ("unsupported format string passed to " +:+ type_name v
                      +:+ ".__format__"))
  end.

Definition number_of (v : pyval) : option Q :=
  match v with
  | PBool b => Some (if b then 1%Q else 0%Q)
  | PInt z => Some (inject_Z z)
  | PFloat q => Some q
  | _ => None
  end.

Definition int_of (v : pyval) : option Z :=
  match v with
  | PBool b => Some (if b then 1%Z else 0%Z)
  | PInt z => Some z
  | _ => None
  end.

(** The operator [+]: integers and booleans add as integers; with a float
    the integer is converted to a float first; strings and lists are
    concatenated with their like only. *)
Definition py_add (a b : pyval) : M pyval :=
  match int_of a, int_of b with
  | Some x, Some y => mret (PInt (x + y))
  | _, _ =>
    match number_of a, number_of b with
    | Some x, Some y =>
      if overflows a || overflows b then throw OverflowError
      else mret (PFloat (x + y))
    | _, _ =>
      match a, b with
      | PStr x, PStr y => mret (PStr (x +:+ y))
      | PList x, PList y => mret (PList (x ++ y))
      | PStr _, _ =>
        throw (TypeError ("can only concatenate str (not " +:+ dq +:+ type_name b
                          +:+ dq +:+ ") to str"))
      | PList _, _ =>
        throw (TypeError ("can only concatenate list (not " +:+ dq +:+ type_name b
                          +:+ dq +:+ ") to list"))
      | _, _ =>
        throw (TypeError ("unsupported operand type(s) for +: '" +:+ type_name a
                          +:+ "' and '" +:+ type_name b +:+ "'"))
      end
    end
  end.

Fixpoint str_repeat (s : string) (n : nat) : string :=
  match n with
  | O => ""
  | S n' => s +:+ str_repeat s n'
  end.

Definition nl : string := String (ascii_of_nat 10) "".

Definition rule : string := str_repeat "=" 70.

(** The three prints that open each step of [main]. *)
Definition banner (title : string) : M unit :=
  print (nl +:+ rule);;
  print title;;
  print rule.

Definition ensure_directories : M unit :=
  invoke (Makedirs "results/metrics") (os_makedirs "results/metrics");;
  invoke (Makedirs "results/plots") (os_makedirs "results/plots");;
  invoke (Makedirs "tests/query_sets") (os_makedirs "tests/query_sets").

(** [generate_test_queries()]: a new list object that holds the literal. *)
Definition generate_test_queries : M loc :=
  fun st =>
    let r := fresh (dom (heap st)) in
    (Val r, {| heap := <[r := Queries.queries]> (heap st);
               world := world st; log := log st |}).

Definition strings (l : list string) : pyval := PList (map PStr l).

Definition py_len (l : list string) : pyval := PInt (Z.of_nat (length l)).

(** The statement [if not os.path.exists(file): ...] with its two prints and
    its [return 1]. *)
Definition check_file (file : string) : M unit :=
  found ← path_exists file;
  if negb found
  then
    print (nl +:+ "❌ Error: " +:+ file +:+ " not found!");;
    print "Please run: python src/utils/data_downloader.py";;
    return_ 1
  else mret tt.

Definition news_file : string := "data/raw/news/news_raw.jsonl".
Definition wiki_file : string := "data/raw/wiki/wiki_raw.jsonl".
Definition news_index : string := "esindex-v1.0-news".
Definition wiki_index : string := "esindex-v1.0-wiki".
Definition summary_file : string := "results/metrics/summary_report.json".

Definition print_stat (prefix : string) (d : pyval) (key spec suffix : string) : M unit :=
  v ← subscript d key;
  f ← format_float spec v;
  printf [Lit prefix; f; Lit suffix].

Definition dump (path : string) (payload : pyval) : M unit :=
  invoke (JsonDump path payload) (json_dump path payload).

(** The body of the [try] statement of [main]. *)
Definition try_block : M unit :=
  (* Initialize Elasticsearch *)
  banner "STEP 1: CONNECTING TO ELASTICSEARCH";;
  invoke (NewIndexer true) (ElasticsearchIndexer true);;
  (* Index News Data *)
  banner "STEP 2: INDEXING NEWS DATA";;
  check_file news_file;;
  news_docs ← invoke (LoadJsonl news_file 5000) (load_jsonl_data news_file 5000);
  invoke (CreateIndex news_index) (create_index news_index);;
  news_stats ← invoke (IndexDocuments news_index news_docs)
                      (index_documents news_index news_docs);
  dump "results/metrics/es_news_indexing_stats.json" news_stats;;
  print "✓ Saved indexing stats to results/metrics/es_news_indexing_stats.json";;
  (* Index Wiki Data *)
  banner "STEP 3: INDEXING WIKI DATA";;
  check_file wiki_file;;
  wiki_docs ← invoke (LoadJsonl wiki_file 5000) (load_jsonl_data wiki_file 5000);
  invoke (CreateIndex wiki_index) (create_index wiki_index);;
  wiki_stats ← invoke (IndexDocuments wiki_index wiki_docs)
                      (index_documents wiki_index wiki_docs);
  dump "results/metrics/es_wiki_indexing_stats.json" wiki_stats;;
  print "✓ Saved indexing stats to results/metrics/es_wiki_indexing_stats.json";;
  (* Generate Test Queries *)
  banner "STEP 4: GENERATING TEST QUERIES";;
  test_queries ← generate_test_queries;
  qs ← read_list test_queries;
  printf [Lit (nl +:+ "📝 Generated "); Fmt "" (py_len qs); Lit " test queries covering:"];;
  print "   - Technology, Science, Politics domains";;
  print "   - Various query lengths (1-4 words)";;
  print "   - Common and rare terms";;
  qs ← read_list test_queries;
  dump "tests/query_sets/test_queries.json" (strings qs);;
  print "✓ Saved queries to tests/query_sets/test_queries.json";;
  (* Evaluate Search Performance (Artifact A) *)
  banner "STEP 5: EVALUATING SEARCH LATENCY (Artifact A)";;
  print (nl +:+ "📊 Testing NEWS index...");;
  '(news_results, news_search_stats) ← call_batch_search news_index test_queries 10;
  dump "results/metrics/es_news_search_stats.json" news_search_stats;;
  print "✓ Saved search stats to results/metrics/es_news_search_stats.json";;
  print (nl +:+ "📊 Testing WIKI index...");;
  '(wiki_results, wiki_search_stats) ← call_batch_search wiki_index test_queries 10;
  dump "results/metrics/es_wiki_search_stats.json" wiki_search_stats;;
  print "✓ Saved search stats to results/metrics/es_wiki_search_stats.json";;
  (* Measure Memory Footprint (Artifact C) *)
  banner "STEP 6: MEASURING MEMORY FOOTPRINT (Artifact C)";;
  news_memory ← invoke (GetIndexStats news_index) (get_index_stats news_index);
  wiki_memory ← invoke (GetIndexStats wiki_index) (get_index_stats wiki_index);
  dump "results/metrics/es_news_memory.json" news_memory;;
  dump "results/metrics/es_wiki_memory.json" wiki_memory;;
  print "✓ Saved memory stats to results/metrics/";;
  (* Generate Summary Report *)
  banner "FINAL SUMMARY - ASSIGNMENT ARTIFACTS";;
  news_documents ← subscript news_stats "total_docs";
  wiki_documents ← subscript wiki_stats "total_docs";
  news_p95 ← subscript news_search_stats "p95_latency_ms";
  news_p99 ← subscript news_search_stats "p99_latency_ms";
  news_mean ← subscript news_search_stats "mean_latency_ms";
  wiki_p95 ← subscript wiki_search_stats "p95_latency_ms";
  wiki_p99 ← subscript wiki_search_stats "p99_latency_ms";
  wiki_mean ← subscript wiki_search_stats "mean_latency_ms";
  news_rate ← subscript news_stats "docs_per_second";
  wiki_rate ← subscript wiki_stats "docs_per_second";
  news_mb ← subscript news_memory "store_size_mb";
  wiki_mb ← subscript wiki_memory "store_size_mb";
  qs ← read_list test_queries;
  let summary := PDict [
    ("activity", PStr "Activity 1 - Elasticsearch Implementation");
    ("version", PStr "ESIndex-v1.0");
    ("datasets", PDict [
      ("news", PDict [("documents", news_documents); ("index_name", PStr news_index)]);
      ("wiki", PDict [("documents", wiki_documents); ("index_name", PStr wiki_index)])]);
    ("artifacts", PDict [
      ("A_latency", PDict [
        ("news", PDict [("p95_ms", news_p95); ("p99_ms", news_p99); ("mean_ms", news_mean)]);
        ("wiki", PDict [("p95_ms", wiki_p95); ("p99_ms", wiki_p99); ("mean_ms", wiki_mean)])]);
      ("B_throughput", PDict [
        ("news_indexing_docs_per_sec", news_rate);
        ("wiki_indexing_docs_per_sec", wiki_rate)]);
      ("C_memory", PDict [("news_mb", news_mb); ("wiki_mb", wiki_mb)])]);
    ("query_count", py_len qs)] in
  dump summary_file summary;;
  (* Print summary *)
  print (nl +:+ "📊 ARTIFACT A - SEARCH LATENCY (Response Time)");;
  print "   News Dataset:";;
  print_stat "      Mean:   " news_search_stats "mean_latency_ms" "7.2f" " ms";;
  print_stat "      Median: " news_search_stats "median_latency_ms" "7.2f" " ms";;
  print_stat "      P95:    " news_search_stats "p95_latency_ms" "7.2f" " ms ⭐";;
  print_stat "      P99:    " news_search_stats "p99_latency_ms" "7.2f" " ms ⭐";;
  print (nl +:+ "   Wiki Dataset:");;
  print_stat "      Mean:   " wiki_search_stats "mean_latency_ms" "7.2f" " ms";;
  print_stat "      Median: " wiki_search_stats "median_latency_ms" "7.2f" " ms";;
  print_stat "      P95:    " wiki_search_stats "p95_latency_ms" "7.2f" " ms ⭐";;
  print_stat "      P99:    " wiki_search_stats "p99_latency_ms" "7.2f" " ms ⭐";;
  print (nl +:+ "⚡ ARTIFACT B - THROUGHPUT (Indexing Speed)");;
  print_stat "   News indexing: " news_stats "docs_per_second" "8,.2f" " docs/sec";;
  print_stat "   Wiki indexing: " wiki_stats "docs_per_second" "8,.2f" " docs/sec";;
  print (nl +:+ "💾 ARTIFACT C - MEMORY FOOTPRINT (Index Size)");;
  print_stat "   News index:    " news_memory "store_size_mb" "8.2f" " MB";;
  print_stat "   Wiki index:    " wiki_memory "store_size_mb" "8.2f" " MB";;
  a ← subscript news_memory "store_size_mb";
  b ← subscript wiki_memory "store_size_mb";
  total ← py_add a b;
  f ← format_float "8.2f" total;
  printf [Lit "   Total:         "; f; Lit " MB"];;
  print (nl +:+ rule);;
  print "✓ ACTIVITY 1 COMPLETE!";;
  print rule;;
  print (nl +:+ "📁 All results saved to:");;
  print "   results/metrics/";;
  print "      ├── es_news_indexing_stats.json";;
  print "      ├── es_news_search_stats.json";;
  print "      ├── es_news_memory.json";;
  print "      ├── es_wiki_indexing_stats.json";;
  print "      ├── es_wiki_search_stats.json";;
  print "      ├── es_wiki_memory.json";;
  print "      └── summary_report.json";;
  print (nl +:+ "💡 Next steps:");;
  print "   1. Review the metrics in results/metrics/";;
  print "   2. Check frequency plots in results/plots/";;
  print "   3. Commit your code to GitHub";;
  print "   4. Start Activity 2 (SelfIndex-v1.0)";;
  print (nl +:+ rule);;
  return_ 0.

(** The output of the three [except] clauses of [main]. *)
Definition file_not_found_output (e : exn) : list event := [
  Print [Lit (nl +:+ "❌ Error: Required file not found")];
  Print [Lit ("   " +:+ exn_text e)];
  Print [Lit (nl +:+ "💡 Make sure you've run:")];
  Print [Lit "   python src/utils/data_downloader.py"]
].

Definition connection_error_output (e : exn) : list event := [
  Print [Lit (nl +:+ "❌ Error: Cannot connect to Elasticsearch")];
  Print [Lit ("   " +:+ exn_text e)];
  Print [Lit (nl +:+ "💡 Try:")];
  Print [Lit "   python docker_setup.py start"]
].

Definition unexpected_error_output (e : exn) : list event := [
  Print [Lit (nl +:+ "❌ Unexpected error: " +:+ exn_text e)];
  Print [Lit (nl +:+ "💡 For debugging:")];
  Print [Lit "   1. Check Docker: python docker_setup.py status"];
  Print [Lit "   2. Check logs: python docker_setup.py logs"];
  Print [Lit "   3. Check data files exist in data/raw/"];
  PrintExc e
].

Definition handler_output (e : exn) : list event :=
  match exn_kind_of e with
  | FileNotFoundError => file_not_found_output e
  | ConnectionError => connection_error_output e
  | OtherException => unexpected_error_output e
  | NotAnException => []
  end.

Fixpoint emit_all (evs : list event) : M unit :=
  match evs with
  | [] => mret tt
  | ev :: evs' => emit ev;; emit_all evs'
  end.

Definition except (e : exn) : M unit :=
  match exn_kind_of e with
  | NotAnException => fun st => (Raise e, st)
  | _ => emit_all (handler_output e);; return_ 1
  end.

Definition try_except {A} (body : M A) (handler : exn -> M A) : M A :=
  fun st =>
    match body st with
    | (Raise e, st') => handler e st'
    | r => r
    end.

Definition main_body : M unit :=
  print rule;;
  print (str_repeat " " 15 +:+ "ELASTICSEARCH INDEXING (ESIndex-v1.0)");;
  print rule;;
  print (nl +:+ "This script will:");;
  print "  1. Connect to Elasticsearch (starts Docker if needed)";;
  print "  2. Index news and wiki datasets";;
  print "  3. Run test queries and measure performance";;
  print "  4. Generate artifacts A, B, C";;
  print (nl +:+ "Estimated time: 3-5 minutes");;
  print rule;;
  ensure_directories;;
  try_except try_block except.

Definition main (st : state World) : main_result * state World :=
  match main_body st with
  | (Val _, st') => (ReturnedNone, st')
  | (Return code, st') => (Returned code, st')
  | (Raise e, st') => (Uncaught e, st')
  end.

(** The events [main] adds to the log. *)
Definition new_events (st : state World) : list event :=
  drop (length (log st)) (log (snd (main st))).

End Script.

End Runner.

(** ** The Search Benchmark Driver *)

Module Indexer.

Import Runner.

Local Open Scope string_scope.

Definition BenchmarkFailedError : exn :=
  {| exn_kind_of := OtherException;
     exn_class := "BenchmarkFailedError";
     exn_text := "every query failed" |}.

Section Driver.

Context {Service : Type}.

(** The search call of the service handle (section 6 of the spec): the
    measured latency of the query in milliseconds, or [None] when the query
    fails. *)
Variable search : string -> string -> nat -> Service -> option Q * Service.

Variable method : Stats.percentile_method.

Fixpoint run_queries (name : string) (queries : list string) (size : nat) (w : Service)
  : list (option Q) * Service :=
  match queries with
  | [] => ([], w)
  | q :: queries' =>
    let '(o, w') := search name q size w in
    let '(os, w'') := run_queries name queries' size w' in
    (o :: os, w'')
  end.

Definition recorded (os : list (option Q)) : list Q := omap id os.

Definition failed (os : list (option Q)) : nat :=
  length (List.filter (fun o => negb (bool_decide (is_Some o))) os).

(** Modelled from the spec: [batch_search] of the indexer module, which is
    not part of the sources; section 4.4 of the spec: every query is run in
    order, a failed query is counted and left out of the aggregates, the
    driver fails when every query of a non-empty sequence fails, and an
    empty sequence gives a SearchRun without latencies. *)
Definition batch_search (name : string) (queries : list string) (size : nat) (w : Service)
  : result (Stats.SearchRun * nat) * Service :=
  let '(os, w') := run_queries name queries size w in
  match queries, recorded os with
  | _ :: _, [] => (Err BenchmarkFailedError, w')
  | _, _ => (Ok (Stats.search_stats method (recorded os), failed os), w')
  end.

End Driver.

(** The statistics dictionary whose keys [main] reads. *)
Definition stats_dict (run : Stats.SearchRun) : pyval :=
  PDict [
    ("mean_latency_ms", PFloat (Stats.mean_latency_ms run));
    ("median_latency_ms", PFloat (Stats.median_latency_ms run));
    ("p95_latency_ms", PFloat (Stats.p95_latency_ms run));
    ("p99_latency_ms", PFloat (Stats.p99_latency_ms run));
    ("min_latency_ms", PFloat (Stats.min_latency_ms run));
    ("max_latency_ms", PFloat (Stats.max_latency_ms run))
  ].

End Indexer.

(** ** A service with canned latencies and failures

    The fake service handle of section 9 of the spec: the collaborators of
    [main] over a world that lists the missing corpus files and counts the
    calls the service still answers before it becomes unreachable. *)

Module Fake.

Import Runner.

Local Open Scope string_scope.

Record fake_world := {
  missing : list string;
  budget : nat
}.

Definition unreachable : exn :=
  {| exn_kind_of := ConnectionError;
     exn_class := "ConnectionError";
     exn_text := "Elasticsearch is not reachable" |}.

Definition tick {A} (a : A) (w : fake_world) : result A * fake_world :=
  match budget w with
  | O => (Err unreachable, w)
  | S n => (Ok a, {| missing := missing w; budget := n |})
  end.

Definition document (id text : string) : pyval :=
  PDict [("id", PStr id); ("text", PStr text)].

Definition corpus : list pyval :=
  [document "1" "solar energy"; document "2" "quantum computing"; document "3" "election"].

Definition canned_latency (name query : string) (size : nat) (w : fake_world)
  : option Q * fake_world :=
  (Some (inject_Z (Z.of_nat (String.length query))), w).

Definition rate_value (t : Throughput.throughput) : pyval :=
  match t with
  | Throughput.Undefined => PNone
  | Throughput.DocsPerSecond q => PFloat q
  end.

Definition indexing_stats (docs : pyval) : pyval :=
  let n := match docs with PList l => length l | _ => O end in
  PDict [("total_docs", PInt (Z.of_nat n));
         ("docs_per_second",
          rate_value (Throughput.docs_per_second (1 # 1000) n (1 # 2)))].

Definition fake_batch_search (name : string) (queries : list string) (size : nat) (w : fake_world)
  : result (pyval * pyval) * list string * fake_world :=
  match tick tt w with
  | (Err e, w') => (Err e, queries, w')
  | (Ok _, w') =>
    match Indexer.batch_search canned_latency Stats.LinearInterpolation
            name queries size w' with
    | (Ok (run, _), w'') => (Ok (PList [], Indexer.stats_dict run), queries, w'')
    | (Err e, w'') => (Err e, queries, w'')
    end
  end.

Global Instance fake : Collaborators fake_world := {|
  os_makedirs := fun _ w => (Ok tt, w);
  os_path_exists := fun path w => negb (existsb (String.eqb path) (missing w));
  ElasticsearchIndexer := fun _ w => tick tt w;
  load_jsonl_data := fun _ limit w => (Ok (PList (take limit corpus)), w);
  create_index := fun _ w => tick tt w;
  index_documents := fun _ docs w => tick (indexing_stats docs) w;
  batch_search := fake_batch_search;
  get_index_stats := fun _ w => tick (PDict [("store_size_mb", PFloat (3 # 2))]) w;
  json_dump := fun _ _ w => (Ok tt, w)
|}.

Definition start (missing_files : list string) (calls : nat) : state fake_world :=
  {| heap := ∅;
     world := {| missing := missing_files; budget := calls |};
     log := [] |}.

(** A search driver that appends to the list of queries it is passed. *)
Definition meddling_batch_search (name : string) (queries : list string) (size : nat)
    (w : fake_world) : result (pyval * pyval) * list string * fake_world :=
  match fake_batch_search name queries size w with
  | (r, qs, w') => (r, (qs ++ ["extra query"])%list, w')
  end.

Definition meddling : Collaborators fake_world := {|
  os_makedirs := fun _ w => (Ok tt, w);
  os_path_exists := fun path w => negb (existsb (String.eqb path) (missing w));
  ElasticsearchIndexer := fun _ w => tick tt w;
  load_jsonl_data := fun _ limit w => (Ok (PList (take limit corpus)), w);
  create_index := fun _ w => tick tt w;
  index_documents := fun _ docs w => tick (indexing_stats docs) w;
  batch_search := meddling_batch_search;
  get_index_stats := fun _ w => tick (PDict [("store_size_mb", PFloat (3 # 2))]) w;
  json_dump := fun _ _ w => (Ok tt, w)
|}.

(** A search call that fails on the query [science] and counts the calls. *)
Definition flaky_search (name query : string) (size : nat) (calls : nat)
  : option Q * nat :=
  (if String.eqb query "science" then None
   else Some (inject_Z (Z.of_nat (String.length query))),
   S calls).

Fixpoint written (path : string) (evs : list event) : option pyval :=
  match evs with
  | [] => None
  | Call (JsonDump p payload) _ :: evs' =>
    if String.eqb p path then Some payload else written path evs'
  | _ :: evs' => written path evs'
  end.

(** The summary that a run with every corpus file and a reachable service
    writes. *)
Definition summary : pyval :=
  default PNone (written summary_file (new_events (start [] 100))).

End Fake.

(** ** Text preprocessing of [src/preprocessor.py] *)

Module Preprocessor.

Local Open Scope N_scope.

(** A Python string is a sequence of Unicode code points. *)
Definition char := N.
Definition text := list char.

Definition of_string (s : string) : text :=
  map (fun c => N_of_ascii c) (list_ascii_of_string s).

Definition in_range (lo hi c : N) : bool := (lo <=? c) && (c <=? hi).

(** [a-z]. *)
Definition is_lower_az (c : char) : bool := in_range 97 122 c.

(** White space as the class [\s] of a [str] pattern has it. *)
Definition is_space (c : char) : bool :=
  in_range 9 13 c || in_range 28 32 c || (c =? 133) || (c =? 160) || (c =? 5760)
  || in_range 8192 8202 c || (c =? 8232) || (c =? 8233) || (c =? 8239)
  || (c =? 8287) || (c =? 12288).

Definition newline : char := 10.
Definition space : char := 32.
Definition lt_sign : char := 60.
Definition gt_sign : char := 62.

Section Preprocess.

(** The lowercase mapping of the Unicode database for a code point outside
    ASCII, which may depend on the characters before and after it. *)
Variable unicode_lower : text -> char -> text -> text.

(** The NLTK library: [word_tokenize], the English stop words and
    [PorterStemmer.stem]. *)
Variable word_tokenize : text -> list text.
Variable stop_word : text -> bool.
Variable stem : text -> text.

Definition lower_char (before : text) (c : char) (after : text) : text :=
  if in_range 65 90 c then [c + 32]
  else if c <? 128 then [c]
  else unicode_lower before c after.

Fixpoint lower_from (before t : text) : text :=
  match t with
  | [] => []
  | c :: t' => lower_char before c t' ++ lower_from (before ++ [c]) t'
  end.

(** [text.lower()]. *)
Definition lower (t : text) : text := lower_from [] t.

Fixpoint starts_with (prefix t : text) : bool :=
  match prefix, t with
  | [], _ => true
  | p :: prefix', c :: t' => (p =? c) && starts_with prefix' t'
  | _ :: _, [] => false
  end.

(** A match of [http\S+|www\S+|https\S+] begins at the head of [t]. *)
Definition url_at (t : text) : bool :=
  let followed (prefix : text) :=
    starts_with prefix t &&
    match drop (length prefix) t with
    | c :: _ => negb (is_space c)
    | [] => false
    end in
  followed (of_string "http") || followed (of_string "www")
  || followed (of_string "https").

(** [re.sub(r"http\S+|www\S+|https\S+", '', text)]: a match runs to the next
    white space; [inside] tells that the scan is within a match. *)
Fixpoint remove_urls (inside : bool) (t : text) : text :=
  match t with
  | [] => []
  | c :: t' =>
    if inside && negb (is_space c) then remove_urls true t'
    else if url_at t then remove_urls true t'
    else c :: remove_urls false t'
  end.

(** The number of characters before the first [>] of [t], when no newline
    comes before it: the characters [.*?] matches. *)
Fixpoint tag_body (t : text) : option nat :=
  match t with
  | [] => None
  | c :: t' =>
    if c =? gt_sign then Some O
    else if c =? newline then None
    else option_map S (tag_body t')
  end.

(** [re.sub(r'<.*?>', '', text)]; [skip] counts the characters of the
    current match that are still to be dropped. *)
Fixpoint remove_tags (skip : nat) (t : text) : text :=
  match t with
  | [] => []
  | c :: t' =>
    match skip with
    | S skip' => remove_tags skip' t'
    | O =>
      if c =? lt_sign
      then match tag_body t' with
           | Some n => remove_tags (S n) t'
           | None => c :: remove_tags O t'
           end
      else c :: remove_tags O t'
    end
  end.

(** [re.sub(r'[^a-z\s]', ' ', text)]. *)
Definition remove_symbols (t : text) : text :=
  map (fun c => if is_lower_az c || is_space c then c else space) t.

(** The text handed to the tokenizer. *)
Definition clean (t : text) : text :=
  remove_symbols (remove_tags O (remove_urls false (lower t))).

Definition preprocess_text (t : text) : list text :=
  let tokens := word_tokenize (clean t) in
  let tokens :=
    List.filter (fun word => negb (stop_word word) && (2 <? length word)%nat) tokens in
  map stem tokens.

End Preprocess.

(** A tokenizer that splits at white space, as the last step of
    [word_tokenize] does. *)
Fixpoint split_spaces (cur : text) (t : text) : list text :=
  match t with
  | [] => match cur with [] => [] | _ => [cur] end
  | c :: t' =>
    if is_space c
    then match cur with
         | [] => split_spaces [] t'
         | _ => cur :: split_spaces [] t'
         end
    else split_spaces (cur ++ [c]) t'
  end.

Definition text_eqb (a b : text) : bool := bool_decide (a = b).

Definition sample_stop_word (w : text) : bool :=
  existsb (text_eqb w) [of_string "the"; of_string "and"; of_string "for"].

(** A stemmer that drops a final [s]. *)
Definition drop_final_s (w : text) : text :=
  match reverse w with
  | c :: w' => if c =? 115 then reverse w' else w
  | [] => w
  end.

Definition keep_char (before : text) (c : char) (after : text) : text := [c].

Definition sample_preprocess : text -> list text :=
  preprocess_text keep_char (split_spaces []) sample_stop_word drop_final_s.

End Preprocessor.

(** ** The container manager of [docker_setup.py] *)

Module Docker.

Local Open Scope string_scope.
Local Open Scope list_scope.

(** Exceptions, by the classes the [except] clauses of the script name. *)
Inductive exn_kind :=
| CalledProcessError
| FileNotFoundError
| ValueError
| TimeoutExpired
| OtherError.

Record exn := {
  exn_kind_of : exn_kind;
  exn_text : string
}.

(** What running a command gives: the process exits with a return code and
    its captured output, or [subprocess] raises before or while it runs. *)
Inductive exec_result :=
| Exited (returncode : Z) (stdout : string)
| Failed (e : exn).

(** The operating system, over the state [World] of everything outside the
    script: running a command line and [time.sleep]. *)
Class Os (World : Type) := {
  execute : list string -> World -> exec_result * World;
  sleep : nat -> World -> World;
  (** The text of the [CalledProcessError] for a command and its return
      code, which names the signal of a process that was killed. *)
  exit_message : list string -> Z -> string
}.

(** The value a method returns. *)
Inductive pyret :=
| RNone
| RBool (b : bool).

Definition truthy (v : pyret) : bool :=
  match v with
  | RNone => false
  | RBool b => b
  end.

Inductive event :=
| Print (text : string) (ending : string)
| Run (argv : list string) (result : exec_result)
| Sleep (seconds : nat).

Inductive outcome (A : Type) :=
| Val (a : A)
| Return (v : pyret)
| Raise (e : exn).
Arguments Val {A} a.
Arguments Return {A} v.
Arguments Raise {A} e.

Record state (World : Type) := {
  world : World;
  log : list event
}.
Arguments world {World} s.
Arguments log {World} s.

Definition M (World A : Type) : Type := state World -> outcome A * state World.

#[export] Instance M_ret {World} : MRet (M World) :=
  fun A (a : A) st => (Val a, st).

#[export] Instance M_bind {World} : MBind (M World) :=
  fun A B (f : A -> M World B) (m : M World A) st =>
    match m st with
    | (Val a, st') => f a st'
    | (Return v, st') => (Return v, st')
    | (Raise e, st') => (Raise e, st')
    end.

Record completed := {
  returncode : Z;
  stdout : string
}.

Record run_options := {
  capture_output : bool;
  stderr_devnull : bool;
  check : bool;
  timeout : option nat
}.

Definition plainly : run_options :=
  {| capture_output := false; stderr_devnull := false; check := false; timeout := None |}.

Definition checked : run_options :=
  {| capture_output := false; stderr_devnull := false; check := true; timeout := None |}.

Definition captured_checked : run_options :=
  {| capture_output := true; stderr_devnull := false; check := true; timeout := None |}.

Section Script.

Context {World : Type} `{Os World}.

Local Abbreviation M := (M World).

Definition emit (ev : event) : M unit :=
  fun st => (Val tt, {| world := world st; log := log st ++ [ev] |}).

Definition nl : string := String (ascii_of_nat 10) "".

(** [print(text)] and [print(text, end=ending)]. *)
Definition print (text : string) : M unit := emit (Print text nl).

Definition print_end (text ending : string) : M unit := emit (Print text ending).

Definition return_ {A} (v : pyret) : M A := fun st => (Return v, st).

Definition raise {A} (e : exn) : M A := fun st => (Raise e, st).

(** A call of a method: its [return] gives the value of the call, and so
    does running to its end, with [None]. *)
Definition call (body : M unit) : M pyret :=
  fun st =>
    match body st with
    | (Val _, st') => (Val RNone, st')
    | (Return v, st') => (Val v, st')
    | (Raise e, st') => (Raise e, st')
    end.

(** [try: body / except classes: handler], where [catches] tells the
    exceptions of the named classes. *)
Definition try_except {A} (body : M A) (catches : exn -> bool) (handler : exn -> M A)
  : M A :=
  fun st =>
    match body st with
    | (Raise e, st') => if catches e then handler e st' else (Raise e, st')
    | r => r
    end.

Definition time_sleep (seconds : nat) : M unit :=
  fun st => (Val tt, {| world := sleep seconds (world st);
                        log := log st ++ [Sleep seconds] |}).

(** [subprocess.run]: it refuses [capture_output] together with a [stderr]
    argument before it starts anything; with [check] a return code other
    than zero raises [CalledProcessError]. *)
Definition capture_conflict : exn :=
  {| exn_kind_of := ValueError;
     exn_text := "stdout and stderr arguments may not be used with capture_output." |}.

Definition nonzero_exit (argv : list string) (rc : Z) : exn :=
  {| exn_kind_of := CalledProcessError; exn_text := exit_message argv rc |}.

Definition subprocess_run (argv : list string) (opts : run_options) : M completed :=
  if capture_output opts && stderr_devnull opts
  then raise capture_conflict
  else
    fun st =>
      let '(r, w) := execute argv (world st) in
      let st' := {| world := w; log := log st ++ [Run argv r] |} in
      match r with
      | Failed e => (Raise e, st')
      | Exited rc out =>
        if check opts && negb (rc =? 0)%Z
        then (Raise (nonzero_exit argv rc), st')
        else (Val {| returncode := rc; stdout := out |}, st')
      end.

Definition is_kind (k : exn_kind) (e : exn) : bool :=
  match k, exn_kind_of e with
  | CalledProcessError, CalledProcessError
  | FileNotFoundError, FileNotFoundError
  | ValueError, ValueError
  | TimeoutExpired, TimeoutExpired
  | OtherError, OtherError => true
  | _, _ => false
  end.

(** [needle in hay] on strings. *)
Fixpoint contains (needle hay : string) : bool :=
  String.prefix needle hay ||
  match hay with
  | EmptyString => false
  | String _ hay' => contains needle hay'
  end.

Fixpoint str_repeat (s : string) (n : nat) : string :=
  match n with
  | O => ""
  | S n' => s +:+ str_repeat s n'
  end.

Definition rule : string := str_repeat "=" 60.

(** The attributes [__init__] sets. *)
Definition container_name : string := "elasticsearch-search-index".
Definition port : N := 9200.
Definition image : string := "docker.elastic.co/elasticsearch/elasticsearch:8.11.0".

Definition port_text : string := pretty port.

Definition check_docker_installed : M unit :=
  try_except
    (subprocess_run ["docker"; "--version"] captured_checked;;
     return_ (RBool true))
    (fun e => is_kind CalledProcessError e || is_kind FileNotFoundError e)
    (fun _ =>
       print "❌ Docker is not installed or not in PATH";;
       print (nl +:+ "Install Docker from: https://docs.docker.com/get-docker/");;
       return_ (RBool false)).

Definition check_docker_running : M unit :=
  try_except
    (subprocess_run ["docker"; "info"]
       {| capture_output := true; stderr_devnull := true; check := true;
          timeout := None |};;
     return_ (RBool true))
    (is_kind CalledProcessError)
    (fun _ =>
       print "❌ Docker daemon is not running";;
       print (nl +:+ "Start Docker Desktop or run: sudo systemctl start docker");;
       return_ (RBool false)).

Definition ps_running : list string :=
  ["docker"; "ps"; "--filter"; "name=" +:+ container_name; "--format"; "{{.Names}}"].

Definition ps_all : list string :=
  ["docker"; "ps"; "-a"; "--filter"; "name=" +:+ container_name; "--format"; "{{.Names}}"].

Definition is_container_running : M unit :=
  try_except
    (result ← subprocess_run ps_running captured_checked;
     return_ (RBool (contains container_name (stdout result))))
    (is_kind CalledProcessError)
    (fun _ => return_ (RBool false)).

Definition is_container_exists : M unit :=
  try_except
    (result ← subprocess_run ps_all captured_checked;
     return_ (RBool (contains container_name (stdout result))))
    (is_kind CalledProcessError)
    (fun _ => return_ (RBool false)).

Definition _show_connection_info : M unit :=
  print (nl +:+ "📡 Connection Information:");;
  print ("  URL: http://localhost:" +:+ port_text);;
  print ("  Health: http://localhost:" +:+ port_text +:+ "/_cluster/health");;
  print (nl +:+ "💡 Test connection:");;
  print ("  curl http://localhost:" +:+ port_text);;
  print (nl +:+ "💡 In Python:");;
  print "  from elasticsearch import Elasticsearch";;
  print ("  es = Elasticsearch(['http://localhost:" +:+ port_text +:+ "'])").

Definition docker_start : list string := ["docker"; "start"; container_name].

Definition docker_run : list string := [
  "docker"; "run"; "-d";
  "--name"; container_name;
  "-p"; port_text +:+ ":9200";
  "-e"; "discovery.type=single-node";
  "-e"; "xpack.security.enabled=false";
  "-e"; "ES_JAVA_OPTS=-Xms512m -Xmx512m";
  image
].

Definition curl : list string := ["curl"; "-s"; "http://localhost:" +:+ port_text].

Definition max_retries : nat := 30.

(** The [for] loop of [start], by the number of iterations left. *)
Fixpoint wait_until_ready (retries : nat) : M unit :=
  match retries with
  | O => mret tt
  | S retries' =>
    time_sleep 2;;
    try_except
      (result ← subprocess_run curl
                  {| capture_output := true; stderr_devnull := false; check := false;
                     timeout := Some 2%nat |};
       if (returncode result =? 0)%Z
       then
         print " ✓";;
         print (nl +:+ rule);;
         print "✓ Elasticsearch is ready!";;
         print rule;;
         _show_connection_info;;
         return_ (RBool true)
       else mret tt)
      (fun _ => true)
      (fun _ => mret tt);;
    print_end "." "";;
    wait_until_ready retries'
  end.

Definition start : M unit :=
  print rule;;
  print "Starting Elasticsearch in Docker";;
  print rule;;
  installed ← call check_docker_installed;
  (if negb (truthy installed) then print "1 hi";; return_ (RBool false) else mret tt);;
  daemon ← call check_docker_running;
  (if negb (truthy daemon) then print "2 hi";; return_ (RBool false) else mret tt);;
  running ← call is_container_running;
  (if truthy running
   then
     print "3 hi";;
     print ("✓ Container '" +:+ container_name +:+ "' is already running");;
     _show_connection_info;;
     return_ (RBool true)
   else mret tt);;
  existing ← call is_container_exists;
  (if truthy existing
   then
     print ("📦 Starting existing container '" +:+ container_name +:+ "'...");;
     try_except
       (subprocess_run docker_start checked;; mret tt)
       (is_kind CalledProcessError)
       (fun e =>
          print ("❌ Failed to start container: " +:+ exn_text e);;
          return_ (RBool false))
   else
     print "📦 Creating new Elasticsearch container...";;
     print ("  Image: " +:+ image);;
     print ("  Port: " +:+ port_text);;
     print "  Memory: 512MB";;
     print ("  Container: " +:+ container_name);;
     print "";;
     print "This may take a few minutes on first run (downloading image)...";;
     try_except
       (subprocess_run docker_run checked;;
        print "✓ Container created")
       (is_kind CalledProcessError)
       (fun e =>
          print ("❌ Failed to create container: " +:+ exn_text e);;
          return_ (RBool false)));;
  print_end (nl +:+ "⏳ Waiting for Elasticsearch to start") "";;
  wait_until_ready max_retries;;
  print (nl +:+ "❌ Elasticsearch failed to start within timeout");;
  print "Check logs with: python docker_setup.py logs";;
  return_ (RBool false).

Definition docker_stop : list string := ["docker"; "stop"; container_name].

Definition stop : M unit :=
  print rule;;
  print "Stopping Elasticsearch";;
  print rule;;
  running ← call is_container_running;
  (if negb (truthy running)
   then
     print ("⚠️  Container '" +:+ container_name +:+ "' is not running");;
     return_ RNone
   else mret tt);;
  print ("⏹  Stopping container '" +:+ container_name +:+ "'...");;
  subprocess_run docker_stop checked;;
  print "✓ Container stopped".

Definition restart : M unit :=
  print rule;;
  print "Restarting Elasticsearch";;
  print rule;;
  call stop;;
  print "";;
  call start;;
  mret tt.

Definition ps_details : list string :=
  ["docker"; "ps"; "--filter"; "name=" +:+ container_name;
   "--format"; "table {{.Status}}" +:+ String (ascii_of_nat 9) "{{.Ports}}"].

Definition status : M unit :=
  print rule;;
  print "Elasticsearch Docker Status";;
  print rule;;
  installed ← call check_docker_installed;
  (if negb (truthy installed) then return_ RNone else mret tt);;
  daemon ← call check_docker_running;
  (if negb (truthy daemon) then return_ RNone else mret tt);;
  existing ← call is_container_exists;
  (if negb (truthy existing)
   then
     print ("⚪ Container '" +:+ container_name +:+ "' does not exist");;
     print (nl +:+ "Create it with: python docker_setup.py start");;
     return_ RNone
   else mret tt);;
  running ← call is_container_running;
  if truthy running
  then
    print ("✓ Container '" +:+ container_name +:+ "' is RUNNING");;
    result ← subprocess_run ps_details
               {| capture_output := true; stderr_devnull := false; check := false;
                  timeout := None |};
    print (nl +:+ "Details:");;
    print (stdout result);;
    _show_connection_info
  else
    print ("⚪ Container '" +:+ container_name +:+ "' exists but is STOPPED");;
    print (nl +:+ "Start it with: python docker_setup.py start").

Definition docker_logs (lines : nat) : list string :=
  ["docker"; "logs"; "--tail"; pretty lines; container_name].

Definition logs (lines : nat) : M unit :=
  print rule;;
  print ("Elasticsearch Logs (last " +:+ pretty lines +:+ " lines)");;
  print rule;;
  existing ← call is_container_exists;
  (if negb (truthy existing)
   then
     print ("❌ Container '" +:+ container_name +:+ "' does not exist");;
     return_ RNone
   else mret tt);;
  subprocess_run (docker_logs lines) plainly;;
  mret tt.

Definition docker_rm : list string := ["docker"; "rm"; container_name].

Definition clean : M unit :=
  print rule;;
  print "Cleaning Up Elasticsearch Container";;
  print rule;;
  running ← call is_container_running;
  (if truthy running
   then
     print "⏹  Stopping container...";;
     call stop;;
     print ""
   else mret tt);;
  existing ← call is_container_exists;
  if truthy existing
  then
    print ("🗑️  Removing container '" +:+ container_name +:+ "'...");;
    subprocess_run docker_rm checked;;
    print "✓ Container removed";;
    print (nl +:+ "💡 Tip: To remove the Docker image as well, run:");;
    print ("   docker rmi " +:+ image)
  else
    print ("⚪ Container '" +:+ container_name +:+ "' does not exist").

(** [sys.argv[1].lower()], on the command line argument as given. *)
Variable str_lower : string -> string.

(** The dictionary [commands] of [main]; [docker.logs] is called with its
    default of 50 lines. *)
Definition commands : list (string * M unit) := [
  ("start", start);
  ("stop", stop);
  ("restart", restart);
  ("status", status);
  ("logs", logs 50);
  ("clean", clean)
].

Fixpoint lookup_command (command : string) (table : list (string * M unit))
  : option (M unit) :=
  match table with
  | [] => None
  | (name, method) :: table' =>
    if String.eqb name command then Some method else lookup_command command table'
  end.

Definition main (argv : list string) : M unit :=
  match argv with
  | _ :: argument :: _ =>
    let command := str_lower argument in
    match lookup_command command commands with
    | Some method => call method;; mret tt
    | None =>
      print ("❌ Unknown command: " +:+ command);;
      print (nl +:+ "Available commands: start, stop, restart, status, logs, clean")
    end
  | _ =>
    print "Elasticsearch Docker Management";;
    print (nl +:+ "Usage:");;
    print "  python docker_setup.py start   # Start Elasticsearch";;
    print "  python docker_setup.py stop    # Stop Elasticsearch";;
    print "  python docker_setup.py restart # Restart Elasticsearch";;
    print "  python docker_setup.py status  # Check status";;
    print "  python docker_setup.py logs    # View logs";;
    print "  python docker_setup.py clean   # Remove container";;
    return_ RNone
  end.

(** The commands a block runs, in order. *)
Fixpoint commands_run (evs : list event) : list (list string) :=
  match evs with
  | [] => []
  | Run argv _ :: evs' => argv :: commands_run evs'
  | _ :: evs' => commands_run evs'
  end.

(** The events a block adds to the log. *)
Definition added {A} (m : M A) (st : state World) : list event :=
  drop (length (log st)) (log (snd (m st))).

(** The command sequences of [clean]: the check that the container runs,
    the same check and [docker stop] inside [stop], the check that the
    container exists, [docker rm]; a raised exception ends the sequence. *)
Definition clean_sequences : list (list (list string)) := [
  [ps_running];
  [ps_running; ps_all];
  [ps_running; ps_all; docker_rm];
  [ps_running; ps_running];
  [ps_running; ps_running; ps_all];
  [ps_running; ps_running; ps_all; docker_rm];
  [ps_running; ps_running; docker_stop];
  [ps_running; ps_running; docker_stop; ps_all];
  [ps_running; ps_running; docker_stop; ps_all; docker_rm]
].

(** An attempt of the wait loop that does not end it. *)
Definition unanswered (ev : event) : Prop :=
  match ev with
  | Run _ (Exited 0 _) => False
  | _ => True
  end.

Fixpoint sleeps (evs : list event) : nat :=
  match evs with
  | [] => 0
  | Sleep _ :: evs' => S (sleeps evs')
  | _ :: evs' => sleeps evs'
  end.

End Script.

Arguments is_kind : simpl never.

(** A simulated Docker host: whether the [docker] executable is there,
    whether the container exists and runs, and how many calls of [curl]
    fail before the service answers. *)
Record host := {
  docker_installed : bool;
  container_exists : bool;
  container_running : bool;
  warm_up : nat
}.

Definition not_installed : exn :=
  {| exn_kind_of := FileNotFoundError; exn_text := "No such file or directory: 'docker'" |}.

Definition listing (present : bool) : string :=
  if present then container_name +:+ nl else "".

Definition simulate (argv : list string) (h : host) : exec_result * host :=
  match argv with
  | "curl" :: _ =>
    match container_running h, warm_up h with
    | true, O => (Exited 0 "{}", h)
    | true, S n =>
      (Exited 7 "",
       {| docker_installed := docker_installed h; container_exists := container_exists h;
          container_running := true; warm_up := n |})
    | false, _ => (Exited 7 "", h)
    end
  | "docker" :: rest =>
    if negb (docker_installed h) then (Failed not_installed, h)
    else
      match rest with
      | "ps" :: "-a" :: _ => (Exited 0 (listing (container_exists h)), h)
      | "ps" :: _ => (Exited 0 (listing (container_running h)), h)
      | "stop" :: _ =>
        if container_running h
        then (Exited 0 "",
              {| docker_installed := true; container_exists := true;
                 container_running := false; warm_up := warm_up h |})
        else (Exited 1 "", h)
      | "rm" :: _ =>
        if container_exists h && negb (container_running h)
        then (Exited 0 "",
              {| docker_installed := true; container_exists := false;
                 container_running := false; warm_up := warm_up h |})
        else (Exited 1 "", h)
      | _ => (Exited 0 "", h)
      end
  | _ => (Failed not_installed, h)
  end.

Definition py_repr (argv : list string) : string :=
  "[" +:+ String.concat ", " (map (fun a => "'" +:+ a +:+ "'") argv) +:+ "]".

#[export] Instance simulated : Os host := {|
  execute := simulate;
  sleep := fun _ h => h;
  exit_message := fun argv rc =>
    "Command '" +:+ py_repr argv +:+ "' returned non-zero exit status " +:+ pretty rc
    +:+ "."
|}.

(** [str.lower] on ASCII text. *)
Definition ascii_lower (s : string) : string :=
  string_of_list_ascii
    (map (fun c => let n := nat_of_ascii c in
                   if (65 <=? n)%nat && (n <=? 90)%nat then ascii_of_nat (n + 32) else c)
         (list_ascii_of_string s)).

Definition boot (h : host) : state host := {| world := h; log := [] |}.

End Docker.

(** ** Failing collaborators *)

Module Scenarios.

Import Runner.

Local Open Scope string_scope.
Local Open Scope list_scope.

Definition permission_denied : exn :=
  {| exn_kind_of := OtherException;
     exn_class := "PermissionError";
     exn_text := "[Errno 13] Permission denied: 'results'" |}.

Definition vanished : exn :=
  {| exn_kind_of := FileNotFoundError;
     exn_class := "FileNotFoundError";
     exn_text := "[Errno 2] No such file or directory: 'data/raw/news/news_raw.jsonl'" |}.

Definition interrupted : exn :=
  {| exn_kind_of := NotAnException;
     exn_class := "KeyboardInterrupt";
     exn_text := "" |}.

(** The working directory cannot be written: [os.makedirs] fails. *)
Definition read_only : Collaborators Fake.fake_world := {|
  os_makedirs := fun _ w => (Err permission_denied, w);
  os_path_exists := os_path_exists (Collaborators := Fake.fake);
  ElasticsearchIndexer := ElasticsearchIndexer (Collaborators := Fake.fake);
  load_jsonl_data := load_jsonl_data (Collaborators := Fake.fake);
  create_index := create_index (Collaborators := Fake.fake);
  index_documents := index_documents (Collaborators := Fake.fake);
  batch_search := batch_search (Collaborators := Fake.fake);
  get_index_stats := get_index_stats (Collaborators := Fake.fake);
  json_dump := json_dump (Collaborators := Fake.fake)
|}.

(** The loader fails with the given exception, as when the corpus file is
    removed after the check or the user interrupts the run. *)
Definition failing_loader (e : exn) : Collaborators Fake.fake_world := {|
  os_makedirs := os_makedirs (Collaborators := Fake.fake);
  os_path_exists := os_path_exists (Collaborators := Fake.fake);
  ElasticsearchIndexer := ElasticsearchIndexer (Collaborators := Fake.fake);
  load_jsonl_data := fun _ _ w => (Err e, w);
  create_index := create_index (Collaborators := Fake.fake);
  index_documents := index_documents (Collaborators := Fake.fake);
  batch_search := batch_search (Collaborators := Fake.fake);
  get_index_stats := get_index_stats (Collaborators := Fake.fake);
  json_dump := json_dump (Collaborators := Fake.fake)
|}.

(** The indexer reports the given value as the statistics of an index. *)
Definition index_stats_are (stats : pyval) : Collaborators Fake.fake_world := {|
  os_makedirs := os_makedirs (Collaborators := Fake.fake);
  os_path_exists := os_path_exists (Collaborators := Fake.fake);
  ElasticsearchIndexer := ElasticsearchIndexer (Collaborators := Fake.fake);
  load_jsonl_data := load_jsonl_data (Collaborators := Fake.fake);
  create_index := create_index (Collaborators := Fake.fake);
  index_documents := index_documents (Collaborators := Fake.fake);
  batch_search := batch_search (Collaborators := Fake.fake);
  get_index_stats := fun _ w => Fake.tick stats w;
  json_dump := json_dump (Collaborators := Fake.fake)
|}.

(** An index size that is an integer beyond the range of a float. *)
Definition huge_size : pyval := PDict [("store_size_mb", PInt (2 ^ 1024))].

End Scenarios.

(** * Specification predicates

    The shapes of the event logs of [main] and the invariants of its list of
    queries, in which the theorems below are stated. *)

Module RunSpec.

Import Runner.

Local Open Scope string_scope.
Local Open Scope list_scope.

(** An event after which [main] goes on: neither a failed call, nor an
    exception raised by [main] itself, nor a corpus file found missing. *)
Definition quiet (ev : event) : bool :=
  match ev with
  | Call (PathExists _ false) _ => false
  | Call _ (Some _) => false
  | Throw _ => false
  | _ => true
  end.

(** The events of a failed check of a corpus file: the answer of
    [os.path.exists] and the two lines [main] prints before [return 1]. *)
Definition missing_output (file : string) : list event := [
  Call (PathExists file false) None;
  Print [Lit (nl +:+ "❌ Error: " +:+ file +:+ " not found!")];
  Print [Lit "Please run: python src/utils/data_downloader.py"]
].

(** What the runner tells the user when the search service cannot be
    reached: that the connection failed, the text of the exception, and the
    command that starts the service. *)
Definition connection_remedy (e : exn) : list event := [
  Print [Lit (nl +:+ "❌ Error: Cannot connect to Elasticsearch")];
  Print [Lit ("   " +:+ exn_text e)];
  Print [Lit (nl +:+ "💡 Try:")];
  Print [Lit "   python docker_setup.py start"]
].

(** What the runner tells the user about an exception, by its class: a
    missing file, an unreachable service, any other [Exception] (with the
    traceback), and nothing for an exception outside [Exception]. *)
Definition reported (e : exn) : list event :=
  match exn_kind_of e with
  | FileNotFoundError => [
      Print [Lit (nl +:+ "❌ Error: Required file not found")];
      Print [Lit ("   " +:+ exn_text e)];
      Print [Lit (nl +:+ "💡 Make sure you've run:")];
      Print [Lit "   python src/utils/data_downloader.py"]
    ]
  | ConnectionError => connection_remedy e
  | OtherException => [
      Print [Lit (nl +:+ "❌ Unexpected error: " +:+ exn_text e)];
      Print [Lit (nl +:+ "💡 For debugging:")];
      Print [Lit "   1. Check Docker: python docker_setup.py status"];
      Print [Lit "   2. Check logs: python docker_setup.py logs"];
      Print [Lit "   3. Check data files exist in data/raw/"];
      PrintExc e
    ]
  | NotAnException => []
  end.

(** The event is a call of [load_jsonl_data] on the file. *)
Definition loads (file : string) (ev : event) : bool :=
  match ev with
  | Call (LoadJsonl f _) _ => String.eqb f file
  | _ => false
  end.

Definition is_makedirs (c : call) : bool :=
  match c with Makedirs _ => true | _ => false end.

(** The calls to the indexer, which talk to the search service. *)
Definition service_call (c : call) : bool :=
  match c with
  | NewIndexer _ | CreateIndex _ | IndexDocuments _ _
  | BatchSearch _ _ _ _ | GetIndexStats _ => true
  | _ => false
  end.

(** The calls [main] makes inside its [try] other than those on the corpus
    files. *)
Definition ordinary (c : call) : bool :=
  match c with
  | Makedirs _ | PathExists _ _ | LoadJsonl _ _ => false
  | _ => true
  end.

(** The event that logs the raising of an exception inside the [try]. *)
Inductive failure : event -> exn -> Prop :=
| failed_call c e : is_makedirs c = false -> failure (Call c (Some e)) e
| thrown e : failure (Throw e) e.

(** The last events of a block that an exception or a missing corpus file
    (one of [C], not loaded in the events [pre] before) cuts short. *)
Inductive stopped {A} (C : list string) (pre : list event)
  : list event -> outcome A -> Prop :=
| stop_failure ev e : failure ev e -> stopped C pre [ev] (Raise e)
| stop_missing file :
    In file C -> Forall (fun ev => loads file ev = false) pre ->
    stopped C pre (missing_output file) (Return 1).

(** The events of the [try] block: no call of [os.makedirs], and the loader
    is called on the files of [L] only. *)
Definition allowed (L : list string) (ev : event) : Prop :=
  match ev with
  | Call (LoadJsonl f _) _ => In f L
  | Call (Makedirs _) _ => False
  | _ => True
  end.

(** The events of a block and its outcome agree: the block runs on without
    a failure, or its events end where it is cut short. *)
Inductive orderly {A} (C : list string) (evs : list event) (o : outcome A) : Prop :=
| runs_on :
    Forall (fun ev => quiet ev = true) evs -> (forall e, o <> Raise e) -> orderly C evs o
| stops pre tl :
    evs = pre ++ tl -> Forall (fun ev => quiet ev = true) pre -> stopped C pre tl o ->
    orderly C evs o.

(** The block only adds events to the log, which are orderly. *)
Definition traces {World A} (L C : list string) (m : M World A) : Prop :=
  forall st, exists evs,
    log (snd (m st)) = log st ++ evs /\ Forall (allowed L) evs /\ orderly C evs (fst (m st)).

(** A quiet event that is not a call of the loader. *)
Definition silent (ev : event) : Prop :=
  quiet ev = true /\ forall file, loads file ev = false.

(** How a run of [main] ends, by the events it logs. *)
Inductive finished (evs : list event) (o : outcome unit) : Prop :=
| fin_clean :
    Forall (fun ev => quiet ev = true) evs -> (forall e, o <> Raise e) -> finished evs o
| fin_missing pre file :
    evs = pre ++ missing_output file ->
    Forall (fun ev => quiet ev = true) pre ->
    Forall (fun ev => loads file ev = false) pre ->
    In file [news_file; wiki_file] ->
    o = Return 1 ->
    finished evs o
| fin_handled pre ev e :
    evs = pre ++ ev :: handler_output e ->
    Forall (fun ev => quiet ev = true) pre ->
    failure ev e ->
    o = match exn_kind_of e with NotAnException => Raise e | _ => Return 1 end ->
    finished evs o
| fin_dirs pre path e :
    evs = pre ++ [Call (Makedirs path) (Some e)] ->
    Forall (fun ev => quiet ev = true) pre ->
    o = Raise e ->
    finished evs o.

(** The block only adds events to the log, and ends as [main] does. *)
Definition completes {World} (m : M World unit) : Prop :=
  forall st, exists evs, log (snd (m st)) = log st ++ evs /\ finished evs (fst (m st)).

(** The statements of [main] before its [try]: they run on, or a call to
    [os.makedirs] raises. *)
Definition prelude {World A} (m : M World A) : Prop :=
  forall st, exists evs,
    log (snd (m st)) = log st ++ evs /\
    ((Forall silent evs /\ exists a, fst (m st) = Val a) \/
     (exists pre path e,
        evs = pre ++ [Call (Makedirs path) (Some e)] /\
        Forall silent pre /\ fst (m st) = Raise e)).

(** The outcome of a block that did not run to its end, at another type. *)
Definition cast {A B} (o : outcome A) : outcome B :=
  match o with
  | Val _ => Return 0
  | Return c => Return c
  | Raise e => Raise e
  end.

(** The callee leaves the list of queries it is passed as it found it. *)
Definition leaves_queries {World} `{Collaborators World} : Prop :=
  forall name qs size w, snd (fst (batch_search name qs size w)) = qs.

(** The payload is a dictionary whose [query_count] is 24. *)
Definition counts_queries (payload : pyval) : Prop :=
  exists kv, payload = PDict kv /\ dict_get "query_count" kv = Some (PInt 24).

(** What the events of [main] owe to the list object [r] of the queries:
    each call of [batch_search] receives that object, holding the generated
    queries, and the summary counts them. *)
Definition fine (r : loc) (ev : event) : Prop :=
  match ev with
  | Call (BatchSearch name r' qs size) _ =>
    r' = r /\ qs = Queries.queries /\ size = 10%nat /\ In name [news_index; wiki_index]
  | Call (JsonDump path payload) _ => path = summary_file -> counts_queries payload
  | _ => True
  end.

(** The calls that neither receive the list of queries nor write the
    summary. *)
Definition harmless_call (c : call) : Prop :=
  match c with
  | BatchSearch _ _ _ _ => False
  | JsonDump path _ => path <> summary_file
  | _ => True
  end.

Definition harmless (ev : event) : Prop :=
  match ev with
  | Call c _ => harmless_call c
  | _ => True
  end.

(** The block leaves the heap as it is and logs harmless events only. *)
Definition plain {World A} (m : M World A) : Prop :=
  forall st,
    heap (snd (m st)) = heap st /\
    exists evs, log (snd (m st)) = log st ++ evs /\ Forall harmless evs.

(** The block keeps the generated queries in the list object [r]. *)
Definition keeps {World A} (r : loc) (m : M World A) : Prop :=
  forall st,
    heap st !! r = Some Queries.queries ->
    heap (snd (m st)) !! r = Some Queries.queries /\
    exists evs, log (snd (m st)) = log st ++ evs /\ Forall (fine r) evs.

(** The events of the block are fine for the list object it is about to
    create. *)
Definition sound {World A} (m : M World A) : Prop :=
  forall st, exists evs,
    log (snd (m st)) = log st ++ evs /\ Forall (fine (fresh (dom (heap st)))) evs.

Module Text.

Import Preprocessor.

(** A word of the letters a-z. *)
Definition lowercase_word (w : text) : Prop := Forall (fun c => is_lower_az c = true) w.

(** A text of the letters a-z and white space. *)

Definition letters_and_spaces (t : text) : Prop :=
  Forall (fun c => is_lower_az c || is_space c = true) t.

End Text.

End RunSpec.

(** ** The plan of a run *)

Module PlanSpec.

Import Runner.

Local Open Scope string_scope.
Local Open Scope list_scope.

(** What a call of [main] asks of a collaborator, without the data that
    flows through it. *)
Inductive step :=
| Directory (path : string)
| Check (path : string)
| Connect
| Load (path : string) (limit : nat)
| Create (name : string)
| Index (name : string)
| Search (name : string) (size : nat)
| Stats (name : string)
| Write (path : string).

Definition step_of (c : call) : step :=
  match c with
  | Makedirs path => Directory path
  | PathExists path _ => Check path
  | NewIndexer _ => Connect
  | LoadJsonl path limit => Load path limit
  | CreateIndex name => Create name
  | IndexDocuments name _ => Index name
  | BatchSearch name _ _ size => Search name size
  | GetIndexStats name => Stats name
  | JsonDump path _ => Write path
  end.

(** The calls a block makes, in order, whether they fail or not. *)
Fixpoint steps (evs : list event) : list step :=
  match evs with
  | [] => []
  | Call c _ :: evs' => step_of c :: steps evs'
  | _ :: evs' => steps evs'
  end.

(** The calls of [main] in the order of its statements. *)
Definition plan : list step := [
  Directory "results/metrics";
  Directory "results/plots";
  Directory "tests/query_sets";
  Connect;
  Check news_file;
  Load news_file 5000;
  Create news_index;
  Index news_index;
  Write "results/metrics/es_news_indexing_stats.json";
  Check wiki_file;
  Load wiki_file 5000;
  Create wiki_index;
  Index wiki_index;
  Write "results/metrics/es_wiki_indexing_stats.json";
  Write "tests/query_sets/test_queries.json";
  Search news_index 10;
  Write "results/metrics/es_news_search_stats.json";
  Search wiki_index 10;
  Write "results/metrics/es_wiki_search_stats.json";
  Stats news_index;
  Stats wiki_index;
  Write "results/metrics/es_news_memory.json";
  Write "results/metrics/es_wiki_memory.json";
  Write summary_file
].

(** The block makes the calls of the plan from the [i]-th on, up to the
    [j]-th when it runs to its end, and returns 0 only after the last. *)
Definition follows {World A} (i j : nat) (m : M World A) : Prop :=
  forall st, exists evs k,
    log (snd (m st)) = log st ++ evs /\
    (i <= k)%nat /\
    steps evs = take (k - i) (drop i plan) /\
    match fst (m st) with
    | Val _ => k = j
    | Return c => c = 1%Z \/ (c = 0%Z /\ k = length plan)
    | Raise _ => True
    end.

(** The block does not run to its end: it returns or raises. *)
Definition leaves {World A} (m : M World A) : Prop :=
  forall st a, fst (m st) <> Val a.

End PlanSpec.

(** ** Matches left in a text *)

Module TextSpec.

Import Preprocessor.

Local Open Scope N_scope.

(** A match of [<.*?>] begins at the head of [t]. *)
Definition tag_at (t : text) : bool :=
  match t with
  | [] => false
  | c :: t' => (c =? lt_sign) && match tag_body t' with Some _ => true | None => false end
  end.

Definition is_newline (c : char) : bool := c =? newline.

(** The words that begin a match of [http\S+|www\S+|https\S+]. *)
Definition url_prefixes : list text :=
  [of_string "http"; of_string "www"; of_string "https"].

(** The text [s] begins with a URL as the pattern has it: one of the three
    words, then a character that is not white space. *)
Definition url_match (s : text) : Prop :=
  exists p x rest, In p url_prefixes /\ is_space x = false /\ s = p ++ x :: rest.


(** No URL begins at any position of [t], as a test. *)
Definition url_free (t : text) : bool :=
  forallb (fun n => negb (url_at (drop n t))) (seq 0 (length t)).

Definition is_ascii (c : char) : bool := c <? 128.

(** The small letter of a capital letter of A-Z, and any other character
    as it is. *)
Definition ascii_lower (c : char) : char := if in_range 65 90 c then c + 32 else c.

(** A letter of A-Z or a-z, or ASCII white space. *)
Definition plain_char (c : char) : bool :=
  in_range 65 90 c || is_lower_az c || (is_ascii c && is_space c).

End TextSpec.

(** ** Command sequences of the container manager *)

Module DockerSpec.

Import Docker.

Local Open Scope string_scope.
Local Open Scope list_scope.

Definition docker_version : list string := ["docker"; "--version"].

(** The names [main] accepts. *)
Definition command_names : list string :=
  ["start"; "stop"; "restart"; "status"; "logs"; "clean"].

(** The command sequences of [restart]: those of [stop], then the first
    command of [start]; a raised exception ends the sequence. *)
Definition restart_sequences : list (list (list string)) := [
  [ps_running];
  [ps_running; docker_version];
  [ps_running; docker_stop];
  [ps_running; docker_stop; docker_version]
].

(** A host on which Docker is installed and the container runs. *)
Definition running_host : host :=
  {| docker_installed := true; container_exists := true;
     container_running := true; warm_up := 0 |}.

(** A host on which no command can be run, for a reason other than a
    missing executable. *)
Definition denied : exn :=
  {| exn_kind_of := OtherError; exn_text := "[Errno 13] Permission denied: 'docker'" |}.

Definition forbidden : Os unit := {|
  execute := fun _ w => (Failed denied, w);
  sleep := fun _ w => w;
  exit_message := fun _ _ => ""
|}.

End DockerSpec.

(** * Theorems *)

Module StatsFacts.
Import Stats.
Local Open Scope Q_scope.

Lemma insert_sorted_length x l : length (insert_sorted x l) = S (length l).
Proof.
  induction l as [|y l IH]; simpl; [reflexivity|].
  destruct (Qle_bool x y); simpl; [reflexivity|]. now rewrite IH.
Qed.

Lemma sort_latencies_length l : length (sort_latencies l) = length l.
Proof.
  induction l as [|x l IH]; simpl; [reflexivity|].
  now rewrite insert_sorted_length, IH.
Qed.

Lemma insert_sorted_Forall (P : Q -> Prop) x l :
  P x -> Forall P l -> Forall P (insert_sorted x l).
Proof.
  intros Hx Hl. induction Hl as [|y l Hy Hl IH]; simpl.
  - constructor; [exact Hx | constructor].
  - destruct (Qle_bool x y); repeat constructor; assumption.
Qed.

Lemma sort_latencies_Forall (P : Q -> Prop) l :
  Forall P l -> Forall P (sort_latencies l).
Proof.
  induction 1 as [|x l Hx Hl IH]; simpl; [constructor|].
  now apply insert_sorted_Forall.
Qed.

Lemma Qle_bool_false x y : Qle_bool x y = false -> y <= x.
Proof.
  intros Hb. destruct (Qlt_le_dec x y) as [Hlt|Hle]; [|exact Hle].
  apply Qlt_le_weak in Hlt. apply Qle_bool_iff in Hlt. congruence.
Qed.

Lemma insert_sorted_sorted x l :
  StronglySorted Qle l -> StronglySorted Qle (insert_sorted x l).
Proof.
  induction 1 as [|y l Hs IH Hy]; simpl.
  - repeat constructor.
  - destruct (Qle_bool x y) eqn:Hb.
    + apply Qle_bool_iff in Hb. constructor; [now constructor|].
      constructor; [exact Hb|].
      eapply List.Forall_impl; [|exact Hy]. intros z Hz. simpl in Hz. lra.
    + apply Qle_bool_false in Hb. constructor; [exact IH|].
      now apply insert_sorted_Forall.
Qed.

Lemma sort_latencies_sorted l : StronglySorted Qle (sort_latencies l).
Proof.
  induction l as [|x l IH]; simpl; [constructor|].
  now apply insert_sorted_sorted.
Qed.

(** In a sorted sequence the element at a smaller index is the smaller. *)
Lemma sorted_at_index s :
  StronglySorted Qle s ->
  forall i j, (i <= j)%nat -> (j < length s)%nat -> at_index s i <= at_index s j.
Proof.
  unfold at_index. induction 1 as [|x s Hs IH Hx]; intros i j Hij Hj; simpl in *.
  - lia.
  - destruct i as [|i], j as [|j]; try lia.
    + lra.
    + rewrite List.Forall_forall in Hx. apply Hx. apply nth_In. lia.
    + apply IH; lia.
Qed.

Lemma fold_qmin_le l : forall a,
  fold_left qmin l a <= a /\ Forall (fun x => fold_left qmin l a <= x) l.
Proof.
  induction l as [|y l IH]; intros a; simpl.
  - split; [lra | constructor].
  - destruct (IH (qmin a y)) as [H1 H2].
    assert (Hm : qmin a y <= a /\ qmin a y <= y).
    { unfold qmin. destruct (Qle_bool a y) eqn:Hb.
      - apply Qle_bool_iff in Hb. lra.
      - apply Qle_bool_false in Hb. lra. }
    split; [lra|]. constructor; [lra | exact H2].
Qed.

Lemma fold_qmax_ge l : forall a,
  a <= fold_left qmax l a /\ Forall (fun x => x <= fold_left qmax l a) l.
Proof.
  induction l as [|y l IH]; intros a; simpl.
  - split; [lra | constructor].
  - destruct (IH (qmax a y)) as [H1 H2].
    assert (Hm : a <= qmax a y /\ y <= qmax a y).
    { unfold qmax. destruct (Qle_bool a y) eqn:Hb.
      - apply Qle_bool_iff in Hb. lra.
      - apply Qle_bool_false in Hb. lra. }
    split; [lra|]. constructor; [lra | exact H2].
Qed.

Lemma latency_min_le l : Forall (fun x => latency_min l <= x) l.
Proof.
  destruct l as [|a l]; [constructor|]. simpl.
  destruct (fold_qmin_le l a). now constructor.
Qed.

Lemma latency_max_ge l : Forall (fun x => x <= latency_max l) l.
Proof.
  destruct l as [|a l]; [constructor|]. simpl.
  destruct (fold_qmax_ge l a). now constructor.
Qed.

(** Every element of the sorted sequence lies between the minimum and the
    maximum of the latencies. *)
Lemma sorted_between l i :
  (i < length l)%nat ->
  latency_min l <= at_index (sort_latencies l) i /\
  at_index (sort_latencies l) i <= latency_max l.
Proof.
  intros Hi.
  pose proof (sort_latencies_Forall _ _ (latency_min_le l)) as Hmin.
  pose proof (sort_latencies_Forall _ _ (latency_max_ge l)) as Hmax.
  rewrite List.Forall_forall in Hmin, Hmax.
  assert (Hin : In (at_index (sort_latencies l) i) (sort_latencies l)).
  { apply nth_In. now rewrite sort_latencies_length. }
  split; [now apply Hmin | now apply Hmax].
Qed.


Lemma frac_bounds r :
  (r < 100)%nat -> 0 <= inject_Z (Z.of_nat r) / 100 /\ inject_Z (Z.of_nat r) / 100 <= 1.
Proof.
  intros Hr.
  assert (H0 : inject_Z 0 <= inject_Z (Z.of_nat r)) by (rewrite <- Zle_Qle; lia).
  assert (H1 : inject_Z (Z.of_nat r) <= inject_Z 100) by (rewrite <- Zle_Qle; lia).
  change (inject_Z 0) with 0 in H0. change (inject_Z 100) with 100 in H1.
  unfold Qdiv. change (/ 100) with (1 # 100).
  split; lra.
Qed.

Lemma frac_mono r r' :
  (r <= r')%nat -> inject_Z (Z.of_nat r) / 100 <= inject_Z (Z.of_nat r') / 100.
Proof.
  intros Hr.
  assert (H0 : inject_Z (Z.of_nat r) <= inject_Z (Z.of_nat r')) by (rewrite <- Zle_Qle; lia).
  unfold Qdiv. change (/ 100) with (1 # 100). lra.
Qed.

Lemma between_interp a b f :
  a <= b -> 0 <= f -> f <= 1 -> a <= a + f * (b - a) /\ a + f * (b - a) <= b.
Proof. intros; split; nra. Qed.

Lemma interp_mono a b f f' :
  a <= b -> f <= f' -> a + f * (b - a) <= a + f' * (b - a).
Proof. intros; nra. Qed.

Section Sorted.

Variable s : list Q.
Hypothesis sorted : StronglySorted Qle s.
Hypothesis nonempty : (0 < length s)%nat.

Lemma linear_between p :
  (p <= 100)%nat ->
  at_index s ((length s - 1) * p / 100) <= linear_interpolation p s /\
  linear_interpolation p s <= at_index s (Nat.min ((length s - 1) * p / 100 + 1) (length s - 1)).
Proof.
  intros Hp. unfold linear_interpolation.
  set (k := ((length s - 1) * p)%nat).
  assert (Hk : (k / 100 <= length s - 1)%nat).
  { apply Nat.Div0.div_le_upper_bound. unfold k. nia. }
  pose proof (Nat.mod_upper_bound k 100 ltac:(lia)) as Hr.
  destruct (frac_bounds _ Hr) as [Hf0 Hf1].
  apply between_interp; try assumption.
  apply sorted_at_index; [exact sorted | lia | lia].
Qed.

Lemma linear_mono p p' :
  (p <= p')%nat -> (p' <= 100)%nat ->
  linear_interpolation p s <= linear_interpolation p' s.
Proof.
  intros Hpp Hp'.
  assert (Hp : (p <= 100)%nat) by lia.
  destruct (linear_between p Hp) as [_ Hup].
  destruct (linear_between p' Hp') as [Hlo' _].
  set (k := ((length s - 1) * p)%nat) in *. set (k' := ((length s - 1) * p')%nat) in *.
  assert (Hkk : (k <= k')%nat) by (unfold k, k'; nia).
  assert (Hk' : (k' / 100 <= length s - 1)%nat).
  { apply Nat.Div0.div_le_upper_bound. unfold k'. nia. }
  pose proof (Nat.Div0.div_le_mono k k' 100 Hkk) as Hlo.
  destruct (Nat.eq_dec (k / 100)%nat (k' / 100)%nat) as [Heq|Hne].
  - subst k k'. unfold linear_interpolation. cbv zeta. rewrite <- Heq.
    apply interp_mono.
    + apply sorted_at_index; [exact sorted | lia | lia].
    + apply frac_mono.
      pose proof (Nat.div_mod_eq ((length s - 1) * p) 100).
      pose proof (Nat.div_mod_eq ((length s - 1) * p') 100). lia.
  - assert (Hmid : at_index s (Nat.min (k / 100 + 1) (length s - 1)) <= at_index s (k' / 100)).
    { apply sorted_at_index; [exact sorted | lia | lia]. }
    lra.
Qed.

Lemma linear_le_last p :
  (p <= 100)%nat -> linear_interpolation p s <= at_index s (length s - 1).
Proof.
  intros Hp. destruct (linear_between p Hp) as [_ Hup].
  assert (at_index s (Nat.min ((length s - 1) * p / 100 + 1) (length s - 1)) <= at_index s (length s - 1)).
  { apply sorted_at_index; [exact sorted | lia | lia]. }
  lra.
Qed.

Lemma nearest_rank_mono p p' :
  (p <= p')%nat -> (p' <= 100)%nat -> nearest_rank p s <= nearest_rank p' s.
Proof.
  intros Hpp Hp'. unfold nearest_rank.
  assert (Hk : ((p * length s + 99) / 100 <= (p' * length s + 99) / 100)%nat).
  { apply Nat.Div0.div_le_mono. nia. }
  assert (Hn : ((p' * length s + 99) / 100 < S (length s))%nat).
  { apply Nat.Div0.div_lt_upper_bound. nia. }
  apply sorted_at_index; [exact sorted | lia | lia].
Qed.

Lemma nearest_rank_le_last p :
  (p <= 100)%nat -> nearest_rank p s <= at_index s (length s - 1).
Proof.
  intros Hp. unfold nearest_rank.
  assert (Hn : ((p * length s + 99) / 100 < S (length s))%nat).
  { apply Nat.Div0.div_lt_upper_bound. nia. }
  apply sorted_at_index; [exact sorted | lia | lia].
Qed.

Lemma mid_le_nearest_rank_95 : at_index s (length s / 2) <= nearest_rank 95 s.
Proof.
  unfold nearest_rank.
  pose proof (Nat.div_mod_eq (length s) 2). pose proof (Nat.mod_upper_bound (length s) 2 ltac:(lia)).
  pose proof (Nat.div_mod_eq (95 * length s + 99) 100).
  pose proof (Nat.mod_upper_bound (95 * length s + 99) 100 ltac:(lia)).
  apply sorted_at_index; [exact sorted | lia | lia].
Qed.

End Sorted.


Lemma even_odd_half n :
  (0 < n)%nat ->
  (Nat.even n = true /\ n / 2 - 1 = (n - 1) / 2 /\ S ((n - 1) / 2) = n / 2
   /\ (n - 1) * 50 = 100 * ((n - 1) / 2) + 50)%nat \/
  (Nat.even n = false /\ (n - 1) / 2 = n / 2 /\ (n - 1) * 50 = 100 * (n / 2))%nat.
Proof.
  intros Hn.
  pose proof (Nat.div_mod_eq n 2) as Hd.
  pose proof (Nat.mod_upper_bound n 2 ltac:(lia)) as Hm.
  pose proof (Nat.div_mod_eq (n - 1) 2) as Hd'.
  pose proof (Nat.mod_upper_bound (n - 1) 2 ltac:(lia)) as Hm'.
  destruct (Nat.even n) eqn:He.
  - left. apply Nat.even_spec in He. destruct He as [h Hh]. lia.
  - right. assert (Ho : Nat.odd n = true) by (rewrite <- Nat.negb_even, He; reflexivity).
    apply Nat.odd_spec in Ho. destruct Ho as [h Hh]. lia.
Qed.

Lemma median_bounds l :
  l <> [] ->
  at_index (sort_latencies l) ((length l - 1) / 2) <= median l /\
  median l <= at_index (sort_latencies l) (length l / 2).
Proof.
  intros Hl. unfold median. rewrite sort_latencies_length.
  assert (Hn : (0 < length l)%nat) by (destruct l; [congruence | simpl; lia]).
  destruct (length l) as [|n'] eqn:Hlen; [lia|]. rewrite <- Hlen in *.
  assert (Hs : at_index (sort_latencies l) ((length l - 1) / 2)
               <= at_index (sort_latencies l) (length l / 2)).
  { apply sorted_at_index; [apply sort_latencies_sorted | |].
    - apply Nat.Div0.div_le_mono. lia.
    - rewrite sort_latencies_length. apply Nat.div_lt; lia. }
  destruct (even_odd_half (length l) Hn) as [(He & H1 & _)|(He & H1 & _)].
  - rewrite He, H1. unfold Qdiv. change (/ 2) with (1 # 2). split; lra.
  - rewrite He. rewrite H1 in *. split; lra.
Qed.

Lemma median_le_linear_50 l :
  l <> [] -> median l <= linear_interpolation 50 (sort_latencies l).
Proof.
  intros Hl.
  assert (Hn : (0 < length l)%nat) by (destruct l; [congruence | simpl; lia]).
  assert (Hn' : (0 < length (sort_latencies l))%nat) by (rewrite sort_latencies_length; lia).
  destruct (even_odd_half (length l) Hn) as [(He & H1 & H2 & H3)|(He & H1 & H3)].
  - unfold median, linear_interpolation. rewrite sort_latencies_length.
    destruct (length l) as [|n'] eqn:Hlen; [lia|]. rewrite <- Hlen in *.
    rewrite He, H1, H3.
    replace ((100 * ((length l - 1) / 2) + 50) / 100)%nat with ((length l - 1) / 2)%nat
      by (apply (Nat.div_unique _ 100 _ 50); lia).
    replace ((100 * ((length l - 1) / 2) + 50) mod 100)%nat with 50%nat
      by (apply (Nat.mod_unique _ 100 ((length l - 1) / 2) 50); lia).
    replace (Nat.min ((length l - 1) / 2 + 1) (length l - 1)) with (length l / 2)%nat.
    2:{ pose proof (Nat.div_mod_eq (length l) 2).
        pose proof (Nat.mod_upper_bound (length l) 2 ltac:(lia)). lia. }
    unfold Qdiv. change (/ 2) with (1 # 2). change (/ 100) with (1 # 100).
    change (inject_Z (Z.of_nat 50)) with 50. lra.
  - destruct (median_bounds l Hl) as [_ Hup].
    destruct (linear_between _ (sort_latencies_sorted l) Hn' 50 ltac:(lia)) as [Hlo _].
    rewrite sort_latencies_length in Hlo. rewrite H3 in Hlo.
    replace (100 * (length l / 2) / 100)%nat with (length l / 2)%nat in Hlo
      by (apply (Nat.div_unique _ 100 _ 0); lia).
    lra.
Qed.

Lemma percentile_sorted m p l :
  l <> [] ->
  percentile m p l =
  match m with
  | NearestRank => nearest_rank p (sort_latencies l)
  | LinearInterpolation => linear_interpolation p (sort_latencies l)
  end.
Proof. destruct l; [congruence | reflexivity]. Qed.

(** C1: for every non-empty sequence of latencies, under either percentile
    method, the statistics of the search run are ordered:
    min <= median <= max and median <= P95 <= P99 <= max. *)
Theorem latency_statistics_ordered (m : percentile_method) (l : list Q) :
  l <> [] ->
  let run := search_stats m l in
  min_latency_ms run <= median_latency_ms run /\
  median_latency_ms run <= max_latency_ms run /\
  median_latency_ms run <= p95_latency_ms run /\
  p95_latency_ms run <= p99_latency_ms run /\
  p99_latency_ms run <= max_latency_ms run.
Proof.
  intros Hl. simpl.
  assert (Hn : (0 < length l)%nat) by (destruct l; [congruence | simpl; lia]).
  pose proof (sort_latencies_sorted l) as Hs.
  assert (Hn' : (0 < length (sort_latencies l))%nat) by (rewrite sort_latencies_length; lia).
  destruct (median_bounds l Hl) as [Hmlo Hmup].
  destruct (sorted_between l ((length l - 1) / 2)) as [Hmin _].
  { apply Nat.Div0.div_lt_upper_bound. lia. }
  destruct (sorted_between l (length l / 2)) as [_ Hmax].
  { apply Nat.div_lt; lia. }
  destruct (sorted_between l (length l - 1) ltac:(lia)) as [_ Hlast].
  rewrite !percentile_sorted by exact Hl.
  split; [lra|]. split; [lra|].
  destruct m.
  - pose proof (mid_le_nearest_rank_95 _ Hs Hn') as H95.
    pose proof (nearest_rank_mono _ Hs Hn' 95 99 ltac:(lia) ltac:(lia)) as H99.
    pose proof (nearest_rank_le_last _ Hs Hn' 99 ltac:(lia)) as Hle.
    rewrite sort_latencies_length in H95, Hle.
    repeat split; lra.
  - pose proof (median_le_linear_50 l Hl) as H50.
    pose proof (linear_mono _ Hs Hn' 50 95 ltac:(lia) ltac:(lia)) as H95.
    pose proof (linear_mono _ Hs Hn' 95 99 ltac:(lia) ltac:(lia)) as H99.
    pose proof (linear_le_last _ Hs Hn' 99 ltac:(lia)) as Hle.
    rewrite sort_latencies_length in Hle.
    repeat split; lra.
Qed.

Lemma latency_statistics_ordered_sample :
  sample <> [] /\
  let run := search_stats LinearInterpolation sample in
  min_latency_ms run <= median_latency_ms run /\
  median_latency_ms run <= max_latency_ms run /\
  median_latency_ms run <= p95_latency_ms run /\
  p95_latency_ms run <= p99_latency_ms run /\
  p99_latency_ms run <= max_latency_ms run.
Proof.
  split; [discriminate|].
  apply (latency_statistics_ordered LinearInterpolation sample). discriminate.
Defined.

Example median_sample : median sample == 55.
Proof. vm_compute. reflexivity. Qed.

Example p95_sample_nearest_rank : percentile NearestRank 95 sample == 100.
Proof. vm_compute. reflexivity. Qed.

Example p95_sample_linear : percentile LinearInterpolation 95 sample == 955 # 10.
Proof. vm_compute. reflexivity. Qed.

Example p99_sample_linear : percentile LinearInterpolation 99 sample == 991 # 10.
Proof. vm_compute. reflexivity. Qed.

Example median_unsorted : median [30; 10; 20] == 20.
Proof. vm_compute. reflexivity. Qed.

End StatsFacts.

Module ThroughputFacts.
Import Throughput.
Local Open Scope Q_scope.

Lemma rate_bounds (n floor t : Q) :
  0 <= n -> 0 < floor -> floor <= t -> 0 <= n / t /\ n / t <= n / floor.
Proof.
  intros Hn Hf Ht.
  assert (Hpos : 0 < t) by lra.
  split.
  - apply Qle_shift_div_l; [exact Hpos | lra].
  - apply Qle_shift_div_r; [exact Hpos|].
    assert (Heq : n / floor * t == n * t / floor) by (field; lra).
    rewrite Heq. apply Qle_shift_div_l; [exact Hf | nra].
Qed.

(** C2: for an elapsed time t > 0 and n documents the rate n/t is not
    negative; with a positive minimum-elapsed floor, an indexing run whose
    elapsed time reaches the floor reports that rate, which is at most
    n/floor, and a run whose elapsed time is below the floor reports the
    sentinel. *)
Theorem docs_per_second_defined {Document : Type}
    (min_elapsed : Q) (docs : list Document) (t : Q) :
  0 < min_elapsed ->
  let n := inject_Z (Z.of_nat (length docs)) in
  let run := indexing_run min_elapsed docs t in
  total_docs run = length docs /\
  (0 < t -> 0 <= n / t) /\
  (min_elapsed <= t -> rate run = DocsPerSecond (n / t) /\ n / t <= n / min_elapsed) /\
  (t < min_elapsed -> rate run = Undefined).
Proof.
  intros Hf n run. split; [reflexivity|].
  assert (Hn : 0 <= n).
  { unfold n. change 0 with (inject_Z 0). rewrite <- Zle_Qle. lia. }
  unfold run, indexing_run, docs_per_second. simpl. split; [|split].
  - intros Ht. apply Qle_shift_div_l; [exact Ht | lra].
  - intros Ht. rewrite (proj2 (Qle_bool_iff _ _) Ht).
    split; [reflexivity | now apply rate_bounds].
  - intros Ht. destruct (Qle_bool min_elapsed t) eqn:Hb; [|reflexivity].
    apply Qle_bool_iff in Hb. lra.
Qed.

Lemma docs_per_second_defined_sample :
  let run := indexing_run (1 # 1000) [1%nat; 2%nat; 3%nat] (1 # 2) in
  let n := inject_Z 3 in
  total_docs run = 3%nat /\
  (0 < (1 # 2) -> 0 <= n / (1 # 2)) /\
  ((1 # 1000) <= (1 # 2) ->
     rate run = DocsPerSecond (n / (1 # 2)) /\ n / (1 # 2) <= n / (1 # 1000)) /\
  ((1 # 2) < (1 # 1000) -> rate run = Undefined).
Proof.
  apply (docs_per_second_defined (1 # 1000) [1%nat; 2%nat; 3%nat] (1 # 2)).
  reflexivity.
Defined.

Example docs_per_second_below_floor :
  docs_per_second (1 # 1000) 5000 (1 # 100000) = Undefined.
Proof. reflexivity. Qed.

Example docs_per_second_zero_elapsed : docs_per_second (1 # 1000) 5000 0 = Undefined.
Proof. reflexivity. Qed.

End ThroughputFacts.

Module QueriesFacts.
Import Queries.

(** C5: the generated queries have between one and four words, each of
    these word counts occurs, and the groups the source labels as common
    terms and as rare terms are both among the queries. *)
Theorem queries_are_diverse :
  forallb (fun q => (1 <=? word_count q)%nat && (word_count q <=? 4)%nat) queries = true /\
  has_word_count 1 queries = true /\
  has_word_count 2 queries = true /\
  has_word_count 3 queries = true /\
  has_word_count 4 queries = true /\
  queries = flat_map queries_of query_groups /\
  queries_labelled CommonTerms <> [] /\
  queries_labelled RareTerms <> [] /\
  incl (queries_labelled CommonTerms) queries /\
  incl (queries_labelled RareTerms) queries.
Proof.
  repeat split; try reflexivity; try discriminate.
  - intros q Hq. vm_compute in Hq. vm_compute. tauto.
  - intros q Hq. vm_compute in Hq. vm_compute. tauto.
Qed.

End QueriesFacts.

Module IndexerFacts.
Import Runner Indexer.
Local Open Scope Q_scope.

(** C8: on an empty sequence of queries the search driver returns a run
    without latencies and without failed queries, whose aggregates are all
    zero, and leaves the service as it was. *)
Theorem batch_search_empty {Service : Type}
    (search : string -> string -> nat -> Service -> option Q * Service)
    (method : Stats.percentile_method) (name : string) (size : nat) (w : Service) :
  exists run,
    batch_search search method name [] size w = (Ok (run, 0%nat), w) /\
    Stats.latencies_ms run = [] /\
    Stats.mean_latency_ms run == 0 /\
    Stats.median_latency_ms run == 0 /\
    Stats.p95_latency_ms run == 0 /\
    Stats.p99_latency_ms run == 0 /\
    Stats.min_latency_ms run == 0 /\
    Stats.max_latency_ms run == 0.
Proof.
  eexists. split; [reflexivity|]. simpl. repeat split; reflexivity.
Qed.

Example batch_search_skips_failed_query :
  exists run,
    batch_search Fake.flaky_search Stats.NearestRank "idx"
      ["science"; "technology"]%string 10 0%nat = (Ok (run, 1%nat), 2%nat) /\
    Stats.latencies_ms run = [10].
Proof. eexists. split; reflexivity. Qed.

Example batch_search_all_failed :
  batch_search Fake.flaky_search Stats.NearestRank "idx" ["science"]%string 10 0%nat =
  (Err BenchmarkFailedError, 1%nat).
Proof. reflexivity. Qed.

End IndexerFacts.

Module RunnerFacts.

Import Runner RunSpec.

Local Open Scope string_scope.
Local Open Scope list_scope.

Section Traces.

Context {World : Type} `{Collaborators World}.

Lemma allowed_incl L L' ev : incl L L' -> allowed L ev -> allowed L' ev.
Proof.
  intros Hi. destruct ev as [| c o | |]; simpl; try tauto.
  destruct c; simpl; auto.
Qed.

Lemma allowed_not_loads L file ev : allowed L ev -> ~ In file L -> loads file ev = false.
Proof.
  destruct ev as [| c o | |]; simpl; try reflexivity.
  destruct c; simpl; try reflexivity.
  intros Hin Hn. destruct (String.eqb_spec path file); [subst; tauto | reflexivity].
Qed.

Lemma stopped_not_val {A} C pre tl (a : A) : ~ stopped C pre tl (Val a).
Proof. inversion 1. Qed.

Lemma orderly_val {A} C evs (a : A) :
  orderly C evs (Val a) -> Forall (fun ev => quiet ev = true) evs.
Proof.
  intros [Hq _ | pre tl _ _ Hs]; [exact Hq | now apply stopped_not_val in Hs].
Qed.

Lemma orderly_cast {A B} C C' evs (o : outcome A) :
  incl C C' -> (forall a, o <> Val a) -> orderly C evs o -> orderly C' evs (cast (B := B) o).
Proof.
  intros Hi Hv [Hq Hr | pre tl He Hq Hs].
  - apply runs_on; [exact Hq|]. intros e.
    destruct o as [a | c | e0]; simpl; [discriminate | discriminate |].
    exfalso. now apply (Hr e0).
  - eapply stops; [exact He | exact Hq |].
    destruct Hs as [ev e Hf | file Hin Hl]; simpl.
    + now constructor.
    + constructor; [now apply Hi | exact Hl].
Qed.

Lemma traces_bind {A B} L1 C2 L C (m : M World A) (k : A -> M World B) :
  traces L1 C m -> (forall a, traces L C2 (k a)) ->
  incl L1 L -> incl C2 C -> (forall f, In f L1 -> ~ In f C2) ->
  traces L C (m ≫= k).
Proof.
  intros Hm Hk HL HC Hd st. unfold mbind, M_bind.
  destruct (Hm st) as (evs1 & Hlog1 & Hall1 & Hord1).
  assert (Hall1' : Forall (allowed L) evs1).
  { eapply List.Forall_impl; [|exact Hall1]. intros ev. now apply allowed_incl. }
  destruct (m st) as [[a | c | e] st1]; simpl in *.
  - destruct (Hk a st1) as (evs2 & Hlog2 & Hall2 & Hord2).
    exists (evs1 ++ evs2). rewrite Hlog2, Hlog1, app_assoc.
    split; [reflexivity|]. split; [now apply Forall_app|].
    apply orderly_val in Hord1.
    destruct Hord2 as [Hq Hr | pre tl He Hq Hs].
    + apply runs_on; [now apply Forall_app | exact Hr].
    + apply (stops _ _ _ (evs1 ++ pre) tl).
      * now rewrite He, app_assoc.
      * now apply Forall_app.
      * destruct Hs as [ev e Hf | file Hin Hl]; [now constructor|].
        constructor; [now apply HC|]. apply Forall_app. split; [|exact Hl].
        eapply List.Forall_impl; [|exact Hall1]. intros ev Hev.
        apply (allowed_not_loads L1); [exact Hev|]. intros HinL. now apply (Hd file).
  - exists evs1. repeat split; try assumption.
    apply (orderly_cast (B := B) C C) in Hord1; [exact Hord1 | apply incl_refl | congruence].
  - exists evs1. repeat split; try assumption.
    apply (orderly_cast (B := B) C C) in Hord1; [exact Hord1 | apply incl_refl | congruence].
Qed.


Lemma traces_plain {A B} L C (m : M World A) (k : A -> M World B) :
  traces [] C m -> (forall a, traces L C (k a)) -> traces L C (m ≫= k).
Proof.
  intros Hm Hk. apply (traces_bind [] C L C); try assumption.
  - intros x [].
  - apply incl_refl.
  - intros f [].
Qed.

Lemma traces_ret {A} L C (a : A) : traces L C (mret a : M World A).
Proof.
  intros st. exists []. simpl. rewrite app_nil_r.
  repeat split; [constructor|]. apply runs_on; [constructor | discriminate].
Qed.

Lemma traces_return {A} L C c : traces L C (return_ c : M World A).
Proof.
  intros st. exists []. simpl. rewrite app_nil_r.
  repeat split; [constructor|]. apply runs_on; [constructor | discriminate].
Qed.

Lemma traces_emit L C ev :
  quiet ev = true -> allowed [] ev -> traces L C (emit ev : M World unit).
Proof.
  intros Hq Ha st. exists [ev]. simpl. repeat split.
  - constructor; [|constructor]. apply (allowed_incl []); [intros x []|exact Ha].
  - apply runs_on; [now repeat constructor | discriminate].
Qed.

Lemma traces_print L C s : traces L C (print s : M World unit).
Proof. now apply traces_emit. Qed.

Lemma traces_printf L C line : traces L C (printf line : M World unit).
Proof. now apply traces_emit. Qed.

Lemma traces_throw {A} L C e : traces L C (throw e : M World A).
Proof.
  intros st. exists [Throw e]. simpl. repeat split.
  - now repeat constructor.
  - apply (stops _ _ _ [] [Throw e]); [reflexivity | constructor |].
    constructor. constructor.
Qed.

Lemma traces_call {A} L C c (f : World -> result A * World) :
  is_makedirs c = false -> allowed L (Call c None) ->
  (forall p, c <> PathExists p false) ->
  traces L C (invoke c f).
Proof.
  intros Hm Ha Hp st. unfold invoke.
  destruct (f (world st)) as [[a | e] w]; simpl.
  - exists [Call c None]. repeat split; [now repeat constructor|].
    apply runs_on; [|discriminate]. constructor; [|constructor].
    destruct c; try reflexivity. destruct answer; [reflexivity|]. now destruct (Hp path).
  - exists [Call c (Some e)]. repeat split.
    + constructor; [|constructor]. destruct c; simpl in *; auto.
    + apply (stops _ _ _ [] [Call c (Some e)]); [reflexivity | constructor |].
      constructor. now constructor.
Qed.

Lemma traces_invoke {A} L C c (f : World -> result A * World) :
  ordinary c = true -> traces L C (invoke c f).
Proof.
  intros Ho. apply traces_call; destruct c; try discriminate; simpl; auto.
Qed.

Lemma traces_batch_search L C name r size :
  traces L C (call_batch_search name r size).
Proof.
  intros st. unfold call_batch_search.
  destruct (batch_search name _ size (world st)) as [[[v | e] qs'] w]; simpl.
  - eexists. split; [reflexivity|]. split; [now repeat constructor|].
    apply runs_on; [now repeat constructor | discriminate].
  - eexists. split; [reflexivity|]. split; [now repeat constructor|].
    eapply (stops _ _ _ []); [reflexivity | constructor |].
    constructor. now constructor.
Qed.

Lemma traces_read_list L C r : traces L C (read_list r : M World _).
Proof.
  intros st. exists []. simpl. rewrite app_nil_r.
  repeat split; [constructor|]. apply runs_on; [constructor | discriminate].
Qed.

Lemma traces_generate L C : traces L C (generate_test_queries : M World _).
Proof.
  intros st. exists []. simpl. rewrite app_nil_r.
  repeat split; [constructor|]. apply runs_on; [constructor | discriminate].
Qed.

Lemma traces_subscript L C v key : traces L C (subscript v key : M World _).
Proof.
  destruct v; simpl; try apply traces_throw.
  destruct (dict_get key kv); [apply traces_ret | apply traces_throw].
Qed.

Lemma traces_format_float L C spec v : traces L C (format_float spec v : M World _).
Proof.
  unfold format_float. destruct v; try destruct (float_overflows z);
    first [apply traces_ret | apply traces_throw].
Qed.

Lemma traces_py_add L C a b : traces L C (py_add a b : M World _).
Proof.
  unfold py_add.
  destruct (int_of a), (int_of b), (number_of a), (number_of b);
    try destruct (overflows a || overflows b); destruct a, b;
    first [apply traces_ret | apply traces_throw].
Qed.

Lemma traces_print_stat L C prefix d key spec suffix :
  traces L C (print_stat prefix d key spec suffix : M World _).
Proof.
  unfold print_stat.
  apply traces_plain; [apply traces_subscript | intros v].
  apply traces_plain; [apply traces_format_float | intros f].
  apply traces_printf.
Qed.

Lemma traces_dump L C path payload : traces L C (dump path payload : M World _).
Proof. now apply traces_invoke. Qed.

Lemma traces_banner L C title : traces L C (banner title : M World _).
Proof.
  unfold banner.
  apply traces_plain; [apply traces_print | intros _].
  apply traces_plain; [apply traces_print | intros _].
  apply traces_print.
Qed.

Lemma traces_check_file L C file :
  In file C -> traces L C (check_file file : M World _).
Proof.
  intros Hin st. unfold check_file, mbind, M_bind, path_exists. simpl.
  destruct (os_path_exists file (world st)); simpl.
  - eexists. split; [reflexivity|]. split; [now repeat constructor|].
    apply runs_on; [now repeat constructor | discriminate].
  - exists (missing_output file). rewrite <- !app_assoc. repeat split.
    + now repeat constructor.
    + apply (stops _ _ _ [] (missing_output file)); [reflexivity | constructor |].
      constructor; [exact Hin | constructor].
Qed.

Lemma traces_weaken {A} L C L' C' (m : M World A) :
  incl L L' -> incl C C' -> traces L C m -> traces L' C' m.
Proof.
  intros HL HC Hm st. destruct (Hm st) as (evs & Hlog & Hall & Hord).
  exists evs. repeat split; [exact Hlog | |].
  - eapply List.Forall_impl; [|exact Hall]. intros ev. now apply allowed_incl.
  - destruct Hord as [Hq Hr | pre tl He Hq Hs]; [now apply runs_on|].
    eapply stops; [exact He | exact Hq |].
    destruct Hs as [ev e Hf | f Hin Hl]; [now constructor|].
    constructor; [now apply HC | exact Hl].
Qed.

Lemma traces_checked {B} L C file (k : unit -> M World B) :
  (forall a, traces L C (k a)) -> traces L (file :: C) (check_file file ≫= k).
Proof.
  intros Hk. apply (traces_bind [] C L (file :: C)).
  - apply traces_check_file. now left.
  - exact Hk.
  - intros x [].
  - apply incl_tl, incl_refl.
  - intros f [].
Qed.

Lemma traces_loaded {B} L C file limit f (k : pyval -> M World B) :
  (forall a, traces L C (k a)) -> ~ In file C ->
  traces (file :: L) C (invoke (LoadJsonl file limit) f ≫= k).
Proof.
  intros Hk Hn. apply (traces_bind [file] C (file :: L) C).
  - apply traces_call; simpl; [reflexivity | now left | discriminate].
  - intros a. eapply traces_weaken; [| apply incl_refl | apply Hk].
    apply incl_tl, incl_refl.
  - intros x [-> | []]. now left.
  - apply incl_refl.
  - intros x [<- | []]. exact Hn.
Qed.

Ltac traces_prim :=
  lazymatch goal with
  | |- traces _ _ (print _) => apply traces_print
  | |- traces _ _ (printf _) => apply traces_printf
  | |- traces _ _ (banner _) => apply traces_banner
  | |- traces _ _ (dump _ _) => apply traces_dump
  | |- traces _ _ (print_stat _ _ _ _ _) => apply traces_print_stat
  | |- traces _ _ (subscript _ _) => apply traces_subscript
  | |- traces _ _ (format_float _ _) => apply traces_format_float
  | |- traces _ _ (py_add _ _) => apply traces_py_add
  | |- traces _ _ (read_list _) => apply traces_read_list
  | |- traces _ _ generate_test_queries => apply traces_generate
  | |- traces _ _ (call_batch_search _ _ _) => apply traces_batch_search
  | |- traces _ _ (invoke _ _) => apply traces_invoke; reflexivity
  | |- traces _ _ (return_ _) => apply traces_return
  | |- traces _ _ (mret _) => apply traces_ret
  end.

Ltac traces_step :=
  lazymatch goal with
  | |- traces _ _ (check_file _ ≫= _) => apply traces_checked
  | |- traces _ _ (invoke (LoadJsonl _ _) _ ≫= _) =>
    apply traces_loaded; [| simpl; intuition discriminate]
  | |- traces _ _ (_ ≫= _) => apply traces_plain; [traces_prim |]
  end;
  intros;
  repeat match goal with
         | x : (_ * _)%type |- _ => destruct x
         end.

Lemma traces_try_block : traces [news_file; wiki_file] [news_file; wiki_file] try_block.
Proof.
  unfold try_block.
  repeat traces_step.
  traces_prim.
Qed.


Lemma prelude_print s : prelude (print s : M World unit).
Proof.
  intros st. eexists. split; [reflexivity|]. left. split; [|now exists tt].
  repeat constructor.
Qed.

Lemma prelude_makedirs path :
  prelude (invoke (Makedirs path) (os_makedirs path) : M World unit).
Proof.
  intros st. unfold invoke. destruct (os_makedirs path (world st)) as [[a | e] w]; simpl.
  - eexists. split; [reflexivity|]. left. split; [|now exists a]. repeat constructor.
  - eexists. split; [reflexivity|]. right. exists [], path, e. repeat constructor.
Qed.

Lemma prelude_bind {A B} (m : M World A) (k : A -> M World B) :
  prelude m -> (forall a, prelude (k a)) -> prelude (m ≫= k).
Proof.
  intros Hm Hk st. unfold mbind, M_bind.
  destruct (Hm st) as (evs1 & Hlog1 & Hcase1).
  destruct (m st) as [o1 st1]; simpl in *.
  destruct Hcase1 as [[Hs1 [a ->]] | (pre & path & e & -> & Hs & ->)].
  - destruct (Hk a st1) as (evs2 & Hlog2 & Hcase2).
    exists (evs1 ++ evs2). rewrite Hlog2, Hlog1, app_assoc. split; [reflexivity|].
    destruct Hcase2 as [[Hs2 Hv] | (pre & path & e & -> & Hs & Ho)].
    + left. split; [now apply Forall_app | exact Hv].
    + right. exists (evs1 ++ pre), path, e. rewrite app_assoc.
      repeat split; [now apply Forall_app | exact Ho].
  - eexists. split; [exact Hlog1|]. right. now exists pre, path, e.
Qed.

Lemma prelude_ensure_directories : prelude (ensure_directories : M World unit).
Proof.
  unfold ensure_directories.
  apply prelude_bind; [apply prelude_makedirs | intros _].
  apply prelude_bind; [apply prelude_makedirs | intros _].
  apply prelude_makedirs.
Qed.

Lemma silent_quiet evs : Forall silent evs -> Forall (fun ev => quiet ev = true) evs.
Proof. apply List.Forall_impl. now intros ev [Hq _]. Qed.

Lemma silent_loads file evs : Forall silent evs -> Forall (fun ev => loads file ev = false) evs.
Proof. apply List.Forall_impl. intros ev [_ Hl]. apply Hl. Qed.

Lemma completes_prelude {A} (m : M World A) (k : A -> M World unit) :
  prelude m -> (forall a, completes (k a)) -> completes (m ≫= k).
Proof.
  intros Hm Hk st. unfold mbind, M_bind.
  destruct (Hm st) as (evs1 & Hlog1 & Hcase1).
  destruct (m st) as [o1 st1]; simpl in *.
  destruct Hcase1 as [[Hs1 [a ->]] | (pre & path & e & -> & Hs & ->)].
  - destruct (Hk a st1) as (evs2 & Hlog2 & Hfin).
    exists (evs1 ++ evs2). rewrite Hlog2, Hlog1, app_assoc. split; [reflexivity|].
    pose proof (silent_quiet _ Hs1) as Hq1.
    destruct Hfin as [Hq Hr | pre file -> Hq Hl Hin Ho | pre ev e -> Hq Hf Ho
                     | pre path e -> Hq Ho].
    + apply fin_clean; [now apply Forall_app | exact Hr].
    + apply (fin_missing _ _ (evs1 ++ pre) file); try assumption.
      * now rewrite app_assoc.
      * now apply Forall_app.
      * apply Forall_app. split; [now apply silent_loads | exact Hl].
    + apply (fin_handled _ _ (evs1 ++ pre) ev e); try assumption.
      * now rewrite app_assoc.
      * now apply Forall_app.
    + apply (fin_dirs _ _ (evs1 ++ pre) path e); try assumption.
      * now rewrite app_assoc.
      * now apply Forall_app.
  - eexists. split; [exact Hlog1|]. simpl.
    apply (fin_dirs _ _ pre path e); [reflexivity | now apply silent_quiet | reflexivity].
Qed.

Lemma emit_all_run evs (st : state World) :
  emit_all evs st =
  (Val tt, {| heap := heap st; world := world st; log := log st ++ evs |}).
Proof.
  revert st. induction evs as [|ev evs IH]; intros st; simpl.
  - rewrite app_nil_r. now destruct st.
  - unfold mbind, M_bind, emit. simpl. rewrite IH. simpl.
    now rewrite <- app_assoc.
Qed.

Lemma except_run e (st : state World) :
  except e st =
  (match exn_kind_of e with NotAnException => Raise e | _ => Return 1 end,
   {| heap := heap st; world := world st; log := log st ++ handler_output e |}).
Proof.
  unfold except, handler_output.
  destruct (exn_kind_of e); unfold mbind, M_bind; rewrite ?emit_all_run; simpl;
    try reflexivity.
  rewrite app_nil_r. now destruct st.
Qed.

Lemma completes_try : completes (try_except try_block except : M World unit).
Proof.
  intros st. unfold try_except.
  destruct (traces_try_block st) as (evs & Hlog & _ & Hord).
  destruct (try_block st) as [o st1]; simpl in *.
  destruct Hord as [Hq Hr | pre tl -> Hq Hs].
  - destruct o as [a | c | e]; [| | now destruct (Hr e)];
      (exists evs; split; [exact Hlog|]; now apply fin_clean).
  - destruct Hs as [ev e Hf | file Hin Hl].
    + rewrite except_run. simpl. exists ((pre ++ [ev]) ++ handler_output e).
      rewrite Hlog, <- !app_assoc. split; [reflexivity|].
      apply (fin_handled _ _ pre ev e); try assumption; reflexivity.
    + exists (pre ++ missing_output file). split; [exact Hlog|].
      now apply (fin_missing _ _ pre file).
Qed.

Lemma completes_main_body : completes (main_body : M World unit).
Proof.
  unfold main_body.
  repeat (apply completes_prelude; [apply prelude_print | intros _]).
  apply completes_prelude; [apply prelude_ensure_directories | intros _].
  apply completes_try.
Qed.

(** The events of a run of [main] and its result. *)
Lemma main_finished (st : state World) :
  exists o, finished (new_events st) o /\
    fst (main st) = match o with
                    | Val _ => ReturnedNone
                    | Return c => Returned c
                    | Raise e => Uncaught e
                    end.
Proof.
  unfold new_events, main.
  destruct (completes_main_body st) as (evs & Hlog & Hfin).
  destruct (main_body st) as [o st1]; simpl in *.
  exists o. split.
  - destruct o; simpl; rewrite Hlog, drop_app_length; exact Hfin.
  - now destruct o.
Qed.


Lemma quiet_failed_call c e : quiet (Call c (Some e)) = false.
Proof. destruct c; try reflexivity. now destruct answer. Qed.

Lemma not_in_quiet ev pre :
  quiet ev = false -> Forall (fun ev => quiet ev = true) pre -> ~ In ev pre.
Proof.
  intros Hq Hpre Hin. rewrite List.Forall_forall in Hpre.
  apply Hpre in Hin. congruence.
Qed.

Lemma handler_output_quiet e : Forall (fun ev => quiet ev = true) (handler_output e).
Proof. unfold handler_output. destruct (exn_kind_of e); repeat constructor. Qed.

Lemma handler_output_reported e : handler_output e = reported e.
Proof. unfold handler_output, reported. now destruct (exn_kind_of e). Qed.

(** C7: an exception that a call to the indexer raises reaches the runner
    and is not swallowed: nothing failed before the call, the events of the
    run end with the call and then the lines that tell the user about an
    exception of its class, and [main] returns 1; no later step of the
    pipeline runs. For a [ConnectionError] these are the four lines that say
    that Elasticsearch cannot be reached, give the text of the exception and
    name the command that starts the service. *)
Theorem connection_error_reaches_runner (st : state World) (c : call) (e : exn) :
  service_call c = true ->
  exn_kind_of e <> NotAnException ->
  In (Call c (Some e)) (new_events st) ->
  fst (main st) = Returned 1 /\
  (exists pre,
     new_events st = pre ++ Call c (Some e) :: reported e /\
     Forall (fun ev => quiet ev = true) pre) /\
  (exn_kind_of e = ConnectionError -> reported e = connection_remedy e).
Proof.
  intros Hc Hk Hin.
  destruct (main_finished st) as (o & Hfin & Hres).
  pose proof (quiet_failed_call c e) as Hnq.
  destruct Hfin as [Hq Hr | pre file Hevs Hq Hl Hfile Ho | pre ev e' Hevs Hq Hf Ho
                   | pre path e' Hevs Hq Ho]; rewrite ?Hevs in Hin.
  - now apply not_in_quiet in Hin.
  - apply in_app_or in Hin. destruct Hin as [Hin | Hin].
    + now apply not_in_quiet in Hin.
    + simpl in Hin. intuition discriminate.
  - apply in_app_or in Hin. destruct Hin as [Hin | [Heq | Hin]].
    + now apply not_in_quiet in Hin.
    + rewrite Ho in Hres. clear Ho. subst ev.
      assert (e' = e) as -> by (inversion Hf; reflexivity).
      split; [destruct (exn_kind_of e); congruence|].
      split.
      * exists pre. split; [|exact Hq]. now rewrite Hevs, handler_output_reported.
      * intros Hconn. unfold reported. now rewrite Hconn.
    + now apply (not_in_quiet _ _ Hnq (handler_output_quiet e')) in Hin.
  - apply in_app_or in Hin. destruct Hin as [Hin | [Heq | []]].
    + now apply not_in_quiet in Hin.
    + inversion Heq; subst. discriminate.
Qed.



End Traces.

Ltac event_at n := apply (nth_error_In _ n); vm_compute; reflexivity.

Lemma connection_error_reaches_runner_fake :
  fst (main (Fake.start [] 3)) = Returned 1 /\
  (exists pre,
     new_events (Fake.start [] 3) =
     pre ++ Call (CreateIndex wiki_index) (Some Fake.unreachable)
         :: connection_remedy Fake.unreachable /\
     Forall (fun ev => quiet ev = true) pre) /\
  (exn_kind_of Fake.unreachable = ConnectionError ->
   reported Fake.unreachable = connection_remedy Fake.unreachable).
Proof.
  apply (connection_error_reaches_runner (Fake.start [] 3)
           (CreateIndex wiki_index) Fake.unreachable);
    [reflexivity | discriminate | event_at 31%nat].
Defined.



End RunnerFacts.

Module QueryListFacts.

Import Runner RunSpec.

Local Open Scope string_scope.
Local Open Scope list_scope.

Section Heap.

Context {World : Type} `{Collaborators World}.

Lemma harmless_fine r ev : harmless ev -> fine r ev.
Proof.
  destruct ev as [| c o | |]; simpl; auto.
  destruct c; simpl; auto; [tauto | congruence].
Qed.

Lemma plain_bind {A B} (m : M World A) (k : A -> M World B) :
  plain m -> (forall a, plain (k a)) -> plain (m ≫= k).
Proof.
  intros Hm Hk st. unfold mbind, M_bind.
  destruct (Hm st) as (Hh1 & evs1 & Hl1 & Hf1).
  destruct (m st) as [[a | c | e] st1]; simpl in *; [| now eauto | now eauto].
  destruct (Hk a st1) as (Hh2 & evs2 & Hl2 & Hf2).
  split; [congruence|]. exists (evs1 ++ evs2).
  rewrite Hl2, Hl1, app_assoc. split; [reflexivity | now apply Forall_app].
Qed.

Lemma plain_ret {A} (a : A) : plain (mret a : M World A).
Proof. intros st. split; [reflexivity|]. exists []. simpl. now rewrite app_nil_r. Qed.

Lemma plain_return {A} c : plain (return_ c : M World A).
Proof. intros st. split; [reflexivity|]. exists []. simpl. now rewrite app_nil_r. Qed.

Lemma plain_emit ev : harmless ev -> plain (emit ev : M World unit).
Proof. intros Hev st. split; [reflexivity|]. exists [ev]. now repeat constructor. Qed.

Lemma plain_print s : plain (print s : M World unit).
Proof. now apply plain_emit. Qed.

Lemma plain_printf line : plain (printf line : M World unit).
Proof. now apply plain_emit. Qed.

Lemma plain_throw {A} e : plain (throw e : M World A).
Proof. intros st. split; [reflexivity|]. exists [Throw e]. now repeat constructor. Qed.

Lemma plain_invoke {A} c (f : World -> result A * World) :
  harmless_call c -> plain (invoke c f).
Proof.
  intros Hc st. unfold invoke. destruct (f (world st)) as [[a | e] w]; simpl;
    (split; [reflexivity|]; eexists; split; [reflexivity | now repeat constructor]).
Qed.

Lemma plain_subscript v key : plain (subscript v key : M World _).
Proof.
  destruct v; simpl; try apply plain_throw.
  destruct (dict_get key kv); [apply plain_ret | apply plain_throw].
Qed.

Lemma plain_format_float spec v : plain (format_float spec v : M World _).
Proof.
  unfold format_float. destruct v; try destruct (float_overflows z);
    first [apply plain_ret | apply plain_throw].
Qed.

Lemma plain_py_add a b : plain (py_add a b : M World _).
Proof.
  unfold py_add.
  destruct (int_of a), (int_of b), (number_of a), (number_of b);
    try destruct (overflows a || overflows b); destruct a, b;
    first [apply plain_ret | apply plain_throw].
Qed.

Lemma plain_print_stat prefix d key spec suffix :
  plain (print_stat prefix d key spec suffix : M World _).
Proof.
  unfold print_stat.
  apply plain_bind; [apply plain_subscript | intros v].
  apply plain_bind; [apply plain_format_float | intros f].
  apply plain_printf.
Qed.

Lemma plain_banner title : plain (banner title : M World _).
Proof.
  unfold banner.
  apply plain_bind; [apply plain_print | intros _].
  apply plain_bind; [apply plain_print | intros _].
  apply plain_print.
Qed.

Lemma plain_dump path payload :
  path <> summary_file -> plain (dump path payload : M World _).
Proof. intros Hp. now apply plain_invoke. Qed.

Lemma plain_check_file file : plain (check_file file : M World _).
Proof.
  unfold check_file. apply plain_bind.
  - intros st. split; [reflexivity|]. eexists. split; [reflexivity|].
    now repeat constructor.
  - intros found. destruct found; simpl; [apply plain_ret|].
    apply plain_bind; [apply plain_print | intros _].
    apply plain_bind; [apply plain_print | intros _].
    apply plain_return.
Qed.

Lemma plain_ensure_directories : plain (ensure_directories : M World _).
Proof.
  unfold ensure_directories.
  apply plain_bind; [now apply plain_invoke | intros _].
  apply plain_bind; [now apply plain_invoke | intros _].
  now apply plain_invoke.
Qed.

Lemma plain_emit_all evs : Forall harmless evs -> plain (emit_all evs : M World _).
Proof.
  induction 1 as [|ev evs Hev Hevs IH]; simpl; [apply plain_ret|].
  apply plain_bind; [now apply plain_emit | intros _; exact IH].
Qed.

Lemma plain_except e : plain (except e : M World _).
Proof.
  unfold except, handler_output.
  destruct (exn_kind_of e);
    try (apply plain_bind; [apply plain_emit_all; now repeat constructor
                           | intros _; apply plain_return]).
  intros st. split; [reflexivity|]. exists []. simpl. now rewrite app_nil_r.
Qed.

Lemma keeps_plain {A} r (m : M World A) : plain m -> keeps r m.
Proof.
  intros Hm st Hr. destruct (Hm st) as (Hh & evs & Hl & Hf).
  split; [now rewrite Hh|]. exists evs. split; [exact Hl|].
  eapply List.Forall_impl; [|exact Hf]. intros ev. apply harmless_fine.
Qed.

Lemma keeps_bind {A B} r (m : M World A) (k : A -> M World B) :
  keeps r m -> (forall a, keeps r (k a)) -> keeps r (m ≫= k).
Proof.
  intros Hm Hk st Hr. unfold mbind, M_bind.
  destruct (Hm st Hr) as (Hh1 & evs1 & Hl1 & Hf1).
  destruct (m st) as [[a | c | e] st1]; simpl in *; [| now eauto | now eauto].
  destruct (Hk a st1 Hh1) as (Hh2 & evs2 & Hl2 & Hf2).
  split; [exact Hh2|]. exists (evs1 ++ evs2).
  rewrite Hl2, Hl1, app_assoc. split; [reflexivity | now apply Forall_app].
Qed.

Lemma keeps_read {B} r (k : list string -> M World B) :
  keeps r (k Queries.queries) -> keeps r (read_list r ≫= k).
Proof.
  intros Hk st Hr. unfold mbind, M_bind, read_list. rewrite Hr. simpl.
  now apply Hk.
Qed.

Lemma keeps_dump_summary r payload :
  counts_queries payload -> keeps r (dump summary_file payload : M World _).
Proof.
  intros Hp st Hr. unfold dump, invoke.
  destruct (json_dump summary_file payload (world st)) as [[a | e] w]; simpl;
    (split; [exact Hr|]; eexists; split; [reflexivity|]; now repeat constructor).
Qed.

Section Frame.

Hypothesis frame : leaves_queries.

Lemma keeps_batch_search r name :
  In name [news_index; wiki_index] -> keeps r (call_batch_search name r 10).
Proof.
  intros Hn st Hr. unfold call_batch_search. rewrite Hr. simpl.
  pose proof (frame name Queries.queries 10%nat (world st)) as Hq.
  destruct (batch_search name Queries.queries 10 (world st)) as [[res qs'] w].
  simpl in Hq. subst qs'.
  destruct res as [v | e]; simpl;
    (split; [apply lookup_insert_eq|]; eexists; split; [reflexivity|];
     constructor; [simpl; auto | constructor]).
Qed.

End Frame.

Lemma sound_plain {A B} (m : M World A) (k : A -> M World B) :
  plain m -> (forall a, sound (k a)) -> sound (m ≫= k).
Proof.
  intros Hm Hk st. unfold mbind, M_bind.
  destruct (Hm st) as (Hh1 & evs1 & Hl1 & Hf1).
  assert (Hf1' : Forall (fine (fresh (dom (heap st)))) evs1).
  { eapply List.Forall_impl; [|exact Hf1]. intros ev. apply harmless_fine. }
  destruct (m st) as [[a | c | e] st1]; simpl in *; [| now eauto | now eauto].
  destruct (Hk a st1) as (evs2 & Hl2 & Hf2). rewrite Hh1 in Hf2.
  exists (evs1 ++ evs2).
  rewrite Hl2, Hl1, app_assoc. split; [reflexivity | now apply Forall_app].
Qed.

Lemma sound_generate {B} (k : loc -> M World B) :
  (forall r, keeps r (k r)) -> sound (generate_test_queries ≫= k).
Proof.
  intros Hk st. unfold mbind, M_bind, generate_test_queries. simpl.
  set (r := fresh (dom (heap st))).
  destruct (Hk r {| heap := <[r := Queries.queries]> (heap st);
                    world := world st; log := log st |}) as (_ & evs & Hl & Hf).
  { simpl. apply lookup_insert_eq. }
  exists evs. split; [exact Hl | exact Hf].
Qed.

Lemma sound_try {A} (body : M World A) (handler : exn -> M World A) :
  sound body -> (forall e, plain (handler e)) -> sound (try_except body handler).
Proof.
  intros Hb Hh st. unfold try_except.
  destruct (Hb st) as (evs1 & Hl1 & Hf1).
  destruct (body st) as [[a | c | e] st1]; simpl in *; [now eauto | now eauto |].
  destruct (Hh e st1) as (_ & evs2 & Hl2 & Hf2).
  exists (evs1 ++ evs2). rewrite Hl2, Hl1, app_assoc. split; [reflexivity|].
  apply Forall_app. split; [exact Hf1|].
  eapply List.Forall_impl; [|exact Hf2]. intros ev. apply harmless_fine.
Qed.


Ltac plain_prim :=
  lazymatch goal with
  | |- plain (print _) => apply plain_print
  | |- plain (printf _) => apply plain_printf
  | |- plain (banner _) => apply plain_banner
  | |- plain (dump _ _) => apply plain_dump; unfold summary_file; discriminate
  | |- plain (print_stat _ _ _ _ _) => apply plain_print_stat
  | |- plain (subscript _ _) => apply plain_subscript
  | |- plain (format_float _ _) => apply plain_format_float
  | |- plain (py_add _ _) => apply plain_py_add
  | |- plain (check_file _) => apply plain_check_file
  | |- plain ensure_directories => apply plain_ensure_directories
  | |- plain (invoke _ _) => apply plain_invoke; exact I
  | |- plain (return_ _) => apply plain_return
  | |- plain (mret _) => apply plain_ret
  end.

Ltac keeps_step frame :=
  cbv zeta;
  lazymatch goal with
  | |- keeps _ (read_list _ ≫= _) => apply keeps_read
  | |- keeps _ (call_batch_search _ _ _ ≫= _) =>
    apply keeps_bind;
    [ apply (keeps_batch_search frame); simpl; auto | intros [? ?] ]
  | |- keeps _ (dump summary_file _ ≫= _) =>
    apply keeps_bind;
    [ apply keeps_dump_summary; eexists; split; reflexivity | intros ]
  | |- keeps _ (_ ≫= _) => apply keeps_bind; [ apply keeps_plain; plain_prim | intros ]
  end.

Section Frame.

Hypothesis frame : leaves_queries.

Lemma sound_try_block : sound (try_block : M World unit).
Proof.
  unfold try_block.
  repeat (apply sound_plain; [plain_prim | intros]).
  apply sound_generate. intros r.
  repeat keeps_step frame.
  apply keeps_plain. plain_prim.
Qed.

Lemma sound_main_body : sound (main_body : M World unit).
Proof.
  unfold main_body.
  repeat (apply sound_plain; [plain_prim | intros]).
  apply sound_try; [apply sound_try_block | apply plain_except].
Qed.

Lemma new_events_fine (st : state World) :
  Forall (fine (fresh (dom (heap st)))) (new_events st).
Proof.
  unfold new_events, main.
  destruct (sound_main_body st) as (evs & Hl & Hf).
  destruct (main_body st) as [[a | c | e] st1]; simpl in *;
    now rewrite Hl, drop_app_length.
Qed.

(** C4: when the search driver leaves the list it is passed as it found it,
    the call of [batch_search] for the wiki index receives the list object
    that the call for the news index received, with the same contents, the
    generated queries. *)
Theorem same_queries_for_both_indexes (st : state World)
    r1 qs1 size1 o1 r2 qs2 size2 o2 :
  In (Call (BatchSearch news_index r1 qs1 size1) o1) (new_events st) ->
  In (Call (BatchSearch wiki_index r2 qs2 size2) o2) (new_events st) ->
  r1 = r2 /\ qs1 = qs2 /\ qs2 = Queries.queries.
Proof.
  intros H1 H2. pose proof (new_events_fine st) as Hf.
  rewrite List.Forall_forall in Hf.
  apply Hf in H1. apply Hf in H2. simpl in H1, H2.
  destruct H1 as (-> & -> & _), H2 as (-> & -> & _). auto.
Qed.

(** C9: the generated list has 24 queries, and, when the search driver
    leaves the list it is passed as it found it, the summary that [main]
    writes has 24 as its [query_count]. *)
Theorem summary_query_count (st : state World) payload o :
  In (Call (JsonDump summary_file payload) o) (new_events st) ->
  length Queries.queries = 24%nat /\
  exists kv, payload = PDict kv /\ dict_get "query_count" kv = Some (PInt 24).
Proof.
  intros Hin. split; [reflexivity|].
  pose proof (new_events_fine st) as Hf.
  rewrite List.Forall_forall in Hf. apply Hf in Hin. now apply Hin.
Qed.

End Frame.

(** C3: [generate_test_queries] gives a new list that holds the same
    sequence of queries whatever the state it is called in, and changes
    nothing else: neither the other objects, nor the world, nor the log. *)
Theorem generate_test_queries_deterministic (st1 st2 : state World) :
  exists r1 r2,
    fst (generate_test_queries st1) = Val r1 /\
    fst (generate_test_queries st2) = Val r2 /\
    heap (snd (generate_test_queries st1)) !! r1 = Some Queries.queries /\
    heap (snd (generate_test_queries st2)) !! r2 = Some Queries.queries /\
    heap st1 !! r1 = None /\
    (forall r, r <> r1 -> heap (snd (generate_test_queries st1)) !! r = heap st1 !! r) /\
    world (snd (generate_test_queries st1)) = world st1 /\
    log (snd (generate_test_queries st1)) = log st1.
Proof.
  exists (fresh (dom (heap st1))), (fresh (dom (heap st2))). simpl.
  repeat split; try apply lookup_insert_eq.
  - apply not_elem_of_dom, is_fresh.
  - intros r Hr. now apply lookup_insert_ne.
Qed.

End Heap.

Lemma fake_leaves_queries : leaves_queries (World := Fake.fake_world).
Proof.
  intros name qs size w. simpl. unfold Fake.fake_batch_search.
  destruct (Fake.tick tt w) as [[[] | e] w']; [|reflexivity].
  destruct (Indexer.batch_search _ _ _ _ _ _) as [[[run n] | e] w'']; reflexivity.
Qed.

Ltac logged_at n := apply (nth_error_In _ n); vm_compute; reflexivity.

Lemma same_queries_for_both_indexes_fake :
  let st := Fake.start [] 100 in
  let news := Call (BatchSearch news_index 0 Queries.queries 10) None in
  let wiki := Call (BatchSearch wiki_index 0 Queries.queries 10) None in
  In news (new_events st) /\ In wiki (new_events st) /\
  (0 = 0)%nat /\ Queries.queries = Queries.queries /\ Queries.queries = Queries.queries.
Proof.
  split; [logged_at 48%nat|]. split; [logged_at 52%nat|].
  apply (same_queries_for_both_indexes fake_leaves_queries (Fake.start [] 100)
           0%nat Queries.queries 10%nat None 0%nat Queries.queries 10%nat None);
    [logged_at 48%nat | logged_at 52%nat].
Defined.

Lemma summary_query_count_fake :
  In (Call (JsonDump summary_file Fake.summary) None) (new_events (Fake.start [] 100)) /\
  length Queries.queries = 24%nat /\
  exists kv,
    Fake.summary = PDict kv /\ dict_get "query_count" kv = Some (PInt 24).
Proof.
  split; [logged_at 66%nat|].
  apply (summary_query_count fake_leaves_queries (Fake.start [] 100) Fake.summary None).
  logged_at 66%nat.
Defined.

(** With a search driver that appends to the list it is passed, the call for
    the wiki index receives one query more than the call for the news index
    and the summary counts 26 queries. *)
Example meddling_driver_changes_queries :
  let evs := new_events (H := Fake.meddling) (Fake.start [] 100) in
  nth_error evs 48 = Some (Call (BatchSearch news_index 0 Queries.queries 10) None) /\
  nth_error evs 52 =
    Some (Call (BatchSearch wiki_index 0 (Queries.queries ++ ["extra query"])%list 10) None) /\
  (Fake.written summary_file evs ≫= fun payload =>
     match payload with PDict kv => dict_get "query_count" kv | _ => None end) =
  Some (PInt 26).
Proof. vm_compute. repeat split; reflexivity. Qed.

End QueryListFacts.

Module PlanFacts.

Import Runner RunSpec PlanSpec.

Local Open Scope string_scope.
Local Open Scope list_scope.

Section Plan.

Context {World : Type} `{Collaborators World}.

Lemma steps_app (a b : list event) : steps (a ++ b) = steps a ++ steps b.
Proof.
  induction a as [|ev a IH]; [reflexivity|].
  destruct ev; simpl; try exact IH. now rewrite IH.
Qed.

Lemma follows_bind {A B} i j l (m : M World A) (k : A -> M World B) :
  follows i j m -> (forall a, follows j l (k a)) -> follows i l (m ≫= k).
Proof.
  intros Hm Hk st. unfold mbind, M_bind.
  destruct (Hm st) as (evs1 & n1 & Hl1 & Hn1 & Hs1 & Ho1).
  destruct (m st) as [[a | c | e] st1]; simpl in *.
  - subst n1. destruct (Hk a st1) as (evs2 & n2 & Hl2 & Hn2 & Hs2 & Ho2).
    exists (evs1 ++ evs2), n2. rewrite Hl2, Hl1, app_assoc, steps_app, Hs1, Hs2.
    split; [reflexivity|]. split; [lia|]. split; [|exact Ho2].
    replace (drop j plan) with (drop (j - i) (drop i plan))
      by (rewrite drop_drop; f_equal; lia).
    rewrite take_take_drop. f_equal. lia.
  - now exists evs1, n1.
  - now exists evs1, n1.
Qed.

(** A block that calls no collaborator and does not return. *)
Lemma follows_silent {A} i (m : M World A) :
  (forall st, log (snd (m st)) = log st \/
              exists ev, log (snd (m st)) = log st ++ [ev] /\
                         forall c o, ev <> Call c o) ->
  (forall st c, fst (m st) <> Return c) ->
  follows i i m.
Proof.
  intros Hlog Hret st.
  destruct (Hlog st) as [Hl | (ev & Hl & Hev)].
  - exists [], i. rewrite app_nil_r, Nat.sub_diag. repeat split; try assumption; try lia.
    specialize (Hret st). destruct (fst (m st)); try exact I; [reflexivity|].
    now destruct (Hret code).
  - exists [ev], i. rewrite Nat.sub_diag. repeat split; try assumption; try lia.
    + destruct ev as [| c o | |]; try reflexivity. now destruct (Hev c o).
    + specialize (Hret st). destruct (fst (m st)); try exact I; [reflexivity|].
      now destruct (Hret code).
Qed.

Lemma follows_ret {A} i (a : A) : follows i i (mret a : M World A).
Proof. apply follows_silent; [now left | discriminate]. Qed.

Lemma follows_print i s : follows i i (print s : M World unit).
Proof.
  apply follows_silent; [|discriminate].
  intros st. right. eexists. split; [reflexivity | discriminate].
Qed.

Lemma follows_printf i line : follows i i (printf line : M World unit).
Proof.
  apply follows_silent; [|discriminate].
  intros st. right. eexists. split; [reflexivity | discriminate].
Qed.

Lemma follows_throw {A} i e : follows i i (throw e : M World A).
Proof.
  apply follows_silent; [|discriminate].
  intros st. right. eexists. split; [reflexivity | discriminate].
Qed.

Lemma follows_read_list i r : follows i i (read_list r : M World _).
Proof. apply follows_silent; [now left | discriminate]. Qed.

Lemma follows_generate i : follows i i (generate_test_queries : M World _).
Proof. apply follows_silent; [now left | discriminate]. Qed.

Lemma follows_subscript i v key : follows i i (subscript v key : M World _).
Proof.
  destruct v; simpl; try apply follows_throw.
  destruct (dict_get key kv); [apply follows_ret | apply follows_throw].
Qed.

Lemma follows_format_float i spec v : follows i i (format_float spec v : M World _).
Proof.
  unfold format_float. destruct v; try destruct (float_overflows z);
    first [apply follows_ret | apply follows_throw].
Qed.

Lemma follows_py_add i a b : follows i i (py_add a b : M World _).
Proof.
  unfold py_add.
  destruct (int_of a), (int_of b), (number_of a), (number_of b);
    try destruct (overflows a || overflows b); destruct a, b;
    first [apply follows_ret | apply follows_throw].
Qed.

Lemma follows_print_stat i prefix d key spec suffix :
  follows i i (print_stat prefix d key spec suffix : M World _).
Proof.
  unfold print_stat.
  apply (follows_bind i i i); [apply follows_subscript | intros v].
  apply (follows_bind i i i); [apply follows_format_float | intros f].
  apply follows_printf.
Qed.

Lemma follows_banner i title : follows i i (banner title : M World _).
Proof.
  unfold banner.
  apply (follows_bind i i i); [apply follows_print | intros _].
  apply (follows_bind i i i); [apply follows_print | intros _].
  apply follows_print.
Qed.

Lemma follows_return_1 {A} i : follows i i (return_ 1%Z : M World A).
Proof.
  intros st. exists [], i. simpl. rewrite app_nil_r, Nat.sub_diag.
  split; [reflexivity|]. split; [lia|]. split; [reflexivity|]. now left.
Qed.

Lemma take_1_drop (i : nat) (s : step) :
  plan !! i = Some s -> take (S i - i) (drop i plan) = [s].
Proof.
  intros Hs. replace (S i - i)%nat with 1%nat by lia.
  rewrite (drop_S _ _ _ Hs). simpl. now rewrite take_0.
Qed.

Lemma follows_invoke {A} i c (f : World -> result A * World) :
  plan !! i = Some (step_of c) -> follows i (S i) (invoke c f).
Proof.
  intros Hs st. unfold invoke.
  destruct (f (world st)) as [[a | e] w]; simpl;
    (eexists; exists (S i); split; [reflexivity|]; split; [lia|];
     rewrite (take_1_drop _ _ Hs); split; [reflexivity|]; try reflexivity; exact I).
Qed.

Lemma follows_batch_search i name r size :
  plan !! i = Some (Search name size) ->
  follows i (S i) (call_batch_search name r size : M World _).
Proof.
  intros Hs st. unfold call_batch_search.
  destruct (batch_search name _ size (world st)) as [[[v | e] qs'] w]; simpl;
    (eexists; exists (S i); split; [reflexivity|]; split; [lia|];
     rewrite (take_1_drop _ _ Hs); split; [reflexivity|]; try reflexivity; exact I).
Qed.

Lemma follows_check_file i file :
  plan !! i = Some (Check file) -> follows i (S i) (check_file file : M World _).
Proof.
  intros Hs. unfold check_file. apply (follows_bind i (S i) (S i)).
  - intros st. eexists. exists (S i). split; [reflexivity|]. split; [lia|].
    rewrite (take_1_drop _ _ Hs). now split.
  - intros found. destruct found; simpl; [apply follows_ret|].
    apply (follows_bind _ (S i)); [apply follows_print | intros _].
    apply (follows_bind _ (S i)); [apply follows_print | intros _].
    apply follows_return_1.
Qed.

Lemma follows_ensure_directories : follows 0 3 (ensure_directories : M World _).
Proof.
  unfold ensure_directories.
  apply (follows_bind 0 1); [now apply follows_invoke | intros _].
  apply (follows_bind 1 2); [now apply follows_invoke | intros _].
  now apply follows_invoke.
Qed.

Lemma follows_return_0 {A} :
  follows (length plan) (length plan) (return_ 0%Z : M World A).
Proof.
  intros st. exists [], (length plan). simpl. rewrite app_nil_r.
  split; [reflexivity|]. split; [lia|]. split; [reflexivity|]. now right.
Qed.

Ltac follows_prim :=
  lazymatch goal with
  | |- follows _ _ (print _) => apply follows_print
  | |- follows _ _ (printf _) => apply follows_printf
  | |- follows _ _ (banner _) => apply follows_banner
  | |- follows _ _ (print_stat _ _ _ _ _) => apply follows_print_stat
  | |- follows _ _ (subscript _ _) => apply follows_subscript
  | |- follows _ _ (format_float _ _) => apply follows_format_float
  | |- follows _ _ (py_add _ _) => apply follows_py_add
  | |- follows _ _ (read_list _) => apply follows_read_list
  | |- follows _ _ generate_test_queries => apply follows_generate
  | |- follows _ _ (call_batch_search _ _ _) => apply follows_batch_search; reflexivity
  | |- follows _ _ (check_file _) => apply follows_check_file; reflexivity
  | |- follows _ _ ensure_directories => apply follows_ensure_directories
  | |- follows _ _ (dump _ _) => apply follows_invoke; reflexivity
  | |- follows _ _ (invoke _ _) => apply follows_invoke; reflexivity
  | |- follows _ _ (mret _) => apply follows_ret
  end.

Ltac follows_step :=
  cbv zeta;
  lazymatch goal with
  | |- follows _ _ (_ ≫= _) => eapply follows_bind; [follows_prim |]
  end;
  intros;
  repeat match goal with
         | x : (_ * _)%type |- _ => destruct x
         end.

Lemma follows_try_block : follows 3 (length plan) (try_block : M World unit).
Proof.
  unfold try_block.
  repeat follows_step.
  apply follows_return_0.
Qed.

Lemma steps_handler_output e : steps (handler_output e) = [].
Proof. unfold handler_output. now destruct (exn_kind_of e). Qed.

Lemma follows_try :
  follows 3 (length plan) (try_except try_block except : M World unit).
Proof.
  intros st. unfold try_except.
  destruct (follows_try_block st) as (evs & n & Hl & Hn & Hd & Ho).
  destruct (try_block st) as [[a | c | e] st1]; simpl in *;
    [now exists evs, n | now exists evs, n |].
  rewrite RunnerFacts.except_run. simpl.
  exists (evs ++ handler_output e), n.
  rewrite Hl, app_assoc, steps_app, steps_handler_output, app_nil_r.
  repeat split; try assumption.
  destruct (exn_kind_of e); try exact I; now left.
Qed.

Lemma follows_main_body : follows 0 (length plan) (main_body : M World unit).
Proof.
  unfold main_body.
  repeat (eapply follows_bind; [follows_prim | intros _]).
  apply follows_try.
Qed.

Lemma leaves_bind {A B} (m : M World A) (k : A -> M World B) :
  (forall a, leaves (k a)) -> leaves (m ≫= k).
Proof.
  intros Hk st b. unfold mbind, M_bind.
  destruct (m st) as [[a | c | e] st1]; simpl; try discriminate. apply Hk.
Qed.

Lemma leaves_try_block : leaves (try_block : M World unit).
Proof.
  unfold try_block.
  repeat (cbv zeta; apply leaves_bind; intros;
          repeat match goal with x : (_ * _)%type |- _ => destruct x end).
  intros st0 r0. discriminate.
Qed.

Lemma leaves_main_body : leaves (main_body : M World unit).
Proof.
  unfold main_body. repeat (apply leaves_bind; intros _).
  intros st r. unfold try_except.
  pose proof (leaves_try_block st) as Ht.
  destruct (try_block st) as [[b | c | e] st1]; simpl in *;
    [now destruct (Ht b) | discriminate |].
  rewrite RunnerFacts.except_run. simpl. now destruct (exn_kind_of e).
Qed.

Lemma new_events_steps (st : state World) :
  exists k,
    (steps (new_events st) = take k plan) /\
    (fst (main st) = Returned 0 -> steps (new_events st) = plan) /\
    (forall c, fst (main st) = Returned c -> c = 0%Z \/ c = 1%Z).
Proof.
  unfold new_events, main.
  destruct (follows_main_body st) as (evs & k & Hl & Hk & Hd & Ho).
  destruct (main_body st) as [[a | c | e] st1]; simpl in *;
    rewrite Hl, drop_app_length; exists k;
    rewrite Nat.sub_0_r in Hd; (split; [exact Hd|]); split; try discriminate.
  - intros Hc. injection Hc as ->.
    destruct Ho as [Hc | [_ ->]]; [discriminate|]. exact Hd.
  - intros c' Hc. injection Hc as <-. destruct Ho as [-> | [-> _]]; auto.
Qed.

(** X1: [main] returns 0 only after a run without any failure, in which it
    made each call of its plan once, in the order of the statements: the
    three directories, the connection, then for each corpus the check, the
    load, the index and its report, then the queries, the searches and the
    memory statistics with their reports, the summary last. *)
Theorem exit_status_zero_means_complete (st : state World) :
  fst (main st) = Returned 0 ->
  Forall (fun ev => quiet ev = true) (new_events st) /\
  steps (new_events st) = plan.
Proof.
  intros Hok. split.
  - destruct (RunnerFacts.main_finished st) as (o & Hfin & Hres).
    rewrite Hok in Hres.
    destruct Hfin as [Hq Hr | pre file Hevs Hq Hl Hfile Ho | pre ev e' Hevs Hq Hf Ho
                     | pre path e' Hevs Hq Ho]; try exact Hq; subst o;
      try discriminate.
    destruct (exn_kind_of e'); discriminate.
  - destruct (new_events_steps st) as (k & _ & Hall & _). now apply Hall.
Qed.

(** X2: [main] ends with status 0 or 1 or with an exception it does not
    catch, which is one raised by [os.makedirs] before the [try] or one
    outside [Exception]; the calls it has made by then are the first ones
    of its plan, in order and once each, so that nothing is loaded before
    its file is checked, indexed before it is loaded, searched before it
    is indexed, or summarised before the other reports are written. *)
Theorem main_ends (st : state World) :
  (fst (main st) = Returned 0 \/ fst (main st) = Returned 1 \/
   exists e, fst (main st) = Uncaught e /\
     (exn_kind_of e = NotAnException \/
      exists path, In (Call (Makedirs path) (Some e)) (new_events st))) /\
  exists k, steps (new_events st) = take k plan.
Proof.
  destruct (new_events_steps st) as (k & Hk & _ & Hc). split; [|now exists k].
  destruct (RunnerFacts.main_finished st) as (o & Hfin & Hres).
  destruct (fst (main st)) as [c | | e] eqn:Hm.
  - destruct (Hc c eq_refl) as [-> | ->]; auto.
  - exfalso. unfold main in Hm.
    pose proof (leaves_main_body st) as Hl.
    destruct (main_body st) as [[a | c | e] st1]; simpl in *; try discriminate.
    now destruct (Hl a).
  - right. right. exists e. split; [reflexivity|].
    destruct Hfin as [Hq Hr | pre file Hevs Hq Hl Hfile Ho | pre ev e' Hevs Hq Hf Ho
                     | pre path e' Hevs Hq Ho]; try subst o; try discriminate.
    + destruct o as [a | c | e0]; try discriminate. now destruct (Hr e0).
    + destruct (exn_kind_of e') eqn:Hkind; try discriminate.
      injection Hres as <-. now left.
    + injection Hres as <-. right. exists path. rewrite Hevs.
      apply in_or_app. right. now left.
Qed.

(** X3: an exception raised inside the [try] of [main], by a collaborator or
    by [main] itself, ends the run at once with the lines that tell the
    user about an exception of its class: [main] returns 1 for a
    [FileNotFoundError], a [ConnectionError] or any other [Exception], and
    lets an exception outside [Exception] through without a message. *)
Theorem exception_in_try_is_handled (st : state World) (ev : event) (e : exn) :
  failure ev e ->
  In ev (new_events st) ->
  fst (main st) =
    match exn_kind_of e with NotAnException => Uncaught e | _ => Returned 1 end /\
  exists pre,
    new_events st = pre ++ ev :: reported e /\
    Forall (fun ev => quiet ev = true) pre.
Proof.
  intros Hfail Hin. rewrite <- RunnerFacts.handler_output_reported.
  assert (Hnq : quiet ev = false).
  { destruct Hfail; [apply RunnerFacts.quiet_failed_call | reflexivity]. }
  destruct (RunnerFacts.main_finished st) as (o & Hfin & Hres).
  destruct Hfin as [Hq Hr | pre file Hevs Hq Hl Hfile Ho | pre ev' e' Hevs Hq Hf Ho
                   | pre path e' Hevs Hq Ho]; rewrite ?Hevs in Hin.
  - now apply RunnerFacts.not_in_quiet in Hin.
  - apply in_app_or in Hin. destruct Hin as [Hin | Hin].
    + now apply RunnerFacts.not_in_quiet in Hin.
    + exfalso. destruct Hfail; simpl in Hin; intuition discriminate.
  - apply in_app_or in Hin. destruct Hin as [Hin | [Heq | Hin]].
    + now apply RunnerFacts.not_in_quiet in Hin.
    + subst ev'. assert (e' = e) as ->.
      { destruct Hfail; inversion Hf; reflexivity. }
      rewrite Ho in Hres. split.
      * rewrite Hres. now destruct (exn_kind_of e).
      * now exists pre.
    + now apply (RunnerFacts.not_in_quiet _ _ Hnq (RunnerFacts.handler_output_quiet e'))
        in Hin.
  - apply in_app_or in Hin. destruct Hin as [Hin | [Heq | []]].
    + now apply RunnerFacts.not_in_quiet in Hin.
    + subst ev. inversion Hfail; subst. discriminate.
Qed.

(** X4: a failure of [os.makedirs], which [main] calls before its [try], is
    not caught whatever its class: the exception leaves [main] without any
    of the messages of the [except] clauses, and nothing else is run. *)
Theorem makedirs_failure_escapes (st : state World) (path : string) (e : exn) :
  In (Call (Makedirs path) (Some e)) (new_events st) ->
  fst (main st) = Uncaught e /\
  exists pre,
    new_events st = pre ++ [Call (Makedirs path) (Some e)] /\
    Forall (fun ev => quiet ev = true) pre.
Proof.
  intros Hin.
  pose proof (RunnerFacts.quiet_failed_call (Makedirs path) e) as Hnq.
  destruct (RunnerFacts.main_finished st) as (o & Hfin & Hres).
  destruct Hfin as [Hq Hr | pre file Hevs Hq Hl Hfile Ho | pre ev' e' Hevs Hq Hf Ho
                   | pre path' e' Hevs Hq Ho]; rewrite ?Hevs in Hin.
  - now apply RunnerFacts.not_in_quiet in Hin.
  - apply in_app_or in Hin. destruct Hin as [Hin | Hin].
    + now apply RunnerFacts.not_in_quiet in Hin.
    + simpl in Hin. intuition discriminate.
  - apply in_app_or in Hin. destruct Hin as [Hin | [Heq | Hin]].
    + now apply RunnerFacts.not_in_quiet in Hin.
    + subst ev'. inversion Hf; subst. discriminate.
    + now apply (RunnerFacts.not_in_quiet _ _ Hnq (RunnerFacts.handler_output_quiet e'))
        in Hin.
  - apply in_app_or in Hin. destruct Hin as [Hin | [Heq | []]].
    + now apply RunnerFacts.not_in_quiet in Hin.
    + injection Heq as -> ->. rewrite Ho in Hres. split; [exact Hres|]. now exists pre.
Qed.

End Plan.

Ltac event_at n := apply (nth_error_In _ n); vm_compute; reflexivity.

Lemma exit_status_zero_means_complete_fake :
  Forall (fun ev => quiet ev = true) (new_events (Fake.start [] 100)) /\
  steps (new_events (Fake.start [] 100)) = plan.
Proof.
  apply (exit_status_zero_means_complete (Fake.start [] 100)). vm_compute. reflexivity.
Defined.

Lemma exception_in_try_is_handled_vanished :
  fst (main (H := Scenarios.failing_loader Scenarios.vanished) (Fake.start [] 100)) =
    Returned 1 /\
  exists pre,
    new_events (H := Scenarios.failing_loader Scenarios.vanished) (Fake.start [] 100) =
      pre ++ Call (LoadJsonl news_file 5000) (Some Scenarios.vanished)
          :: reported Scenarios.vanished /\
    Forall (fun ev => quiet ev = true) pre.
Proof.
  apply (exception_in_try_is_handled (H := Scenarios.failing_loader Scenarios.vanished)
           (Fake.start [] 100) _ Scenarios.vanished).
  - now constructor.
  - event_at 21%nat.
Defined.

Lemma makedirs_failure_escapes_read_only :
  fst (main (H := Scenarios.read_only) (Fake.start [] 100)) =
    Uncaught Scenarios.permission_denied /\
  exists pre,
    new_events (H := Scenarios.read_only) (Fake.start [] 100) =
      pre ++ [Call (Makedirs "results/metrics") (Some Scenarios.permission_denied)] /\
    Forall (fun ev => quiet ev = true) pre.
Proof.
  apply (makedirs_failure_escapes (H := Scenarios.read_only) (Fake.start [] 100)).
  event_at 10%nat.
Defined.

(** An index size beyond the range of a float: the run ends with status 1
    when [main] formats the size for the footprint lines. *)
Example overflow_is_reported :
  fst (main (H := Scenarios.index_stats_are Scenarios.huge_size) (Fake.start [] 100)) =
    Returned 1 /\
  drop 82 (new_events (H := Scenarios.index_stats_are Scenarios.huge_size)
             (Fake.start [] 100)) =
    Throw OverflowError :: reported OverflowError /\
  reported OverflowError !! 0%nat =
    Some (Print [Lit (nl +:+ "❌ Unexpected error: int too large to convert to float")]).
Proof. vm_compute. repeat split. Qed.

(** Statistics without the key [store_size_mb]: the run ends with status 1
    when [main] builds the summary. *)
Example missing_key_is_reported :
  fst (main (H := Scenarios.index_stats_are (PDict [])) (Fake.start [] 100)) =
    Returned 1 /\
  drop 66 (new_events (H := Scenarios.index_stats_are (PDict [])) (Fake.start [] 100)) =
    Throw (KeyError "store_size_mb") :: reported (KeyError "store_size_mb") /\
  reported (KeyError "store_size_mb") !! 0%nat =
    Some (Print [Lit (nl +:+ "❌ Unexpected error: 'store_size_mb'")]).
Proof. vm_compute. repeat split. Qed.

(** Statistics that are [None]. *)
Example missing_stats_are_reported :
  fst (main (H := Scenarios.index_stats_are PNone) (Fake.start [] 100)) = Returned 1 /\
  drop 66 (new_events (H := Scenarios.index_stats_are PNone) (Fake.start [] 100)) =
    Throw (TypeError "'NoneType' object is not subscriptable")
      :: reported (TypeError "'NoneType' object is not subscriptable").
Proof. vm_compute. repeat split. Qed.

Example interrupt_is_not_caught :
  fst (main (H := Scenarios.failing_loader Scenarios.interrupted) (Fake.start [] 100)) =
  Uncaught Scenarios.interrupted.
Proof. vm_compute. reflexivity. Qed.

End PlanFacts.

Module CleaningFacts.

Import Preprocessor TextSpec.

Local Open Scope N_scope.

Lemma starts_with_prefix (p t : text) : starts_with p t = true <-> p `prefix_of` t.
Proof.
  revert t. induction p as [|x p IH]; intros t; simpl.
  - split; [intros _; apply prefix_nil | reflexivity].
  - destruct t as [|c t].
    + split; [discriminate | intros Hp; now apply prefix_nil_not in Hp].
    + rewrite andb_true_iff, N.eqb_eq, IH. split.
      * intros [-> Hp]. now apply prefix_cons.
      * intros Hp. split; [now apply prefix_cons_inv_1 in Hp
                           | now apply prefix_cons_inv_2 in Hp].
Qed.

Lemma followed_spec (p t : text) :
  starts_with p t &&
    match drop (length p) t with c :: _ => negb (is_space c) | [] => false end = true <->
  exists x, is_space x = false /\ (p ++ [x]) `prefix_of` t.
Proof.
  rewrite andb_true_iff, starts_with_prefix. split.
  - intros [[k ->] Hx]. rewrite drop_app_length in Hx.
    destruct k as [|x k]; [discriminate|].
    exists x. split; [now apply negb_true_iff|].
    exists k. now rewrite <- app_assoc.
  - intros (x & Hx & k & ->). split.
    + exists (x :: k). now rewrite <- app_assoc.
    + rewrite <- app_assoc, drop_app_length. simpl. now rewrite Hx.
Qed.

Lemma url_at_spec (t : text) :
  url_at t = true <->
  exists p x, In p url_prefixes /\ is_space x = false /\ (p ++ [x]) `prefix_of` t.
Proof.
  unfold url_at. rewrite !orb_true_iff, !followed_spec. unfold url_prefixes. split.
  - intros [[(x & Hx & Hp) | (x & Hx & Hp)] | (x & Hx & Hp)];
      eexists; exists x; (split; [|split; [exact Hx | exact Hp]]); simpl; auto.
  - intros (p & x & Hin & Hx & Hp). simpl in Hin.
    destruct Hin as [<- | [<- | [<- | []]]]; [left; left | left; right | right];
      now exists x.
Qed.

Lemma url_prefix_word (p : text) :
  In p url_prefixes -> p <> [] /\ Forall (fun c => is_space c = false) p.
Proof.
  intros Hin. simpl in Hin.
  destruct Hin as [<- | [<- | [<- | []]]]; (split; [discriminate|]);
    repeat constructor.
Qed.

Lemma url_at_head (c : char) (t : text) : url_at (c :: t) = true -> is_space c = false.
Proof.
  intros Hu. apply url_at_spec in Hu. destruct Hu as (p & x & Hin & _ & Hp).
  destruct (url_prefix_word p Hin) as [Hne Hw].
  destruct p as [|y p]; [congruence|].
  simpl in Hp. apply prefix_cons_inv_1 in Hp. subst y. now inversion Hw.
Qed.

(** Within a match the scan resumes at the next white space. *)
Lemma remove_urls_inside (t : text) :
  remove_urls true t = [] \/
  exists c o, remove_urls true t = c :: o /\ is_space c = true.
Proof.
  induction t as [|c t IH]; [now left|]. simpl.
  destruct (is_space c) eqn:Hc; simpl; [|exact IH].
  destruct (url_at (c :: t)); [exact IH|]. right. now exists c, (remove_urls false t).
Qed.

(** The first word of the result is where it was in the text. *)
Lemma remove_urls_word (w t : text) :
  Forall (fun c => is_space c = false) w ->
  w `prefix_of` remove_urls false t -> w `prefix_of` t.
Proof.
  intros Hw. revert t. induction Hw as [|x w Hx Hw IH]; intros t Hp;
    [apply prefix_nil|].
  destruct t as [|c t]; [now apply prefix_nil_not in Hp|].
  simpl in Hp. destruct (url_at (c :: t)).
  - destruct (remove_urls_inside t) as [Hr | (c' & o & Hr & Hc')]; rewrite Hr in Hp.
    + now apply prefix_nil_not in Hp.
    + apply prefix_cons_inv_1 in Hp. congruence.
  - pose proof (prefix_cons_inv_1 _ _ _ _ Hp) as ->.
    apply prefix_cons, IH. now apply prefix_cons_inv_2 in Hp.
Qed.

Lemma url_at_kept (c : char) (t : text) :
  url_at (c :: remove_urls false t) = true -> url_at (c :: t) = true.
Proof.
  intros Hu. apply url_at_spec in Hu. destruct Hu as (p & x & Hin & Hx & Hp).
  apply url_at_spec. exists p, x. split; [exact Hin|]. split; [exact Hx|].
  destruct (url_prefix_word p Hin) as [Hne Hw].
  destruct p as [|y p]; [congruence|]. simpl in *.
  pose proof (prefix_cons_inv_1 _ _ _ _ Hp) as ->.
  apply prefix_cons, remove_urls_word.
  - apply Forall_app. split; [now inversion Hw | now repeat constructor].
  - now apply prefix_cons_inv_2 in Hp.
Qed.

Lemma remove_urls_no_match (t : text) : forall inside n,
  url_at (drop n (remove_urls inside t)) = false.
Proof.
  induction t as [|c t IH]; intros inside n.
  - simpl. now rewrite drop_nil.
  - simpl. destruct (inside && negb (is_space c)); [apply IH|].
    destruct (url_at (c :: t)) eqn:Hu; [apply IH|].
    destruct n as [|n]; [|apply IH]. simpl.
    destruct (url_at (c :: remove_urls false t)) eqn:Hk; [|reflexivity].
    apply url_at_kept in Hk. congruence.
Qed.

Lemma remove_urls_fixed (o : text) :
  (forall n, url_at (drop n o) = false) -> remove_urls false o = o.
Proof.
  induction o as [|c o IH]; intros Hno; [reflexivity|].
  simpl. rewrite (Hno 0%nat : url_at (c :: o) = false).
  f_equal. apply IH. intros n. exact (Hno (S n)).
Qed.

Lemma remove_urls_spaces (t : text) : forall inside,
  List.filter is_space (remove_urls inside t) = List.filter is_space t.
Proof.
  induction t as [|c t IH]; intros inside; [reflexivity|].
  simpl. destruct (is_space c) eqn:Hc.
  - rewrite andb_false_r.
    destruct (url_at (c :: t)) eqn:Hu;
      [apply url_at_head in Hu; congruence|].
    simpl. rewrite Hc. f_equal. apply IH.
  - destruct (inside && negb false); [apply IH|].
    destruct (url_at (c :: t)); [apply IH|].
    simpl. rewrite Hc. apply IH.
Qed.

Lemma remove_urls_sublist (t : text) : forall inside,
  sublist (remove_urls inside t) t.
Proof.
  induction t as [|c t IH]; intros inside; [constructor|].
  simpl. destruct (inside && negb (is_space c)); [apply sublist_cons, IH|].
  destruct (url_at (c :: t)); [apply sublist_cons, IH | apply sublist_skip, IH].
Qed.

(** X5: after the URLs are removed no match of the pattern is left at any
    position of the text, so removing them again changes nothing; only
    characters are dropped, in place, and never white space. *)
Theorem remove_urls_leaves_no_url (t : text) :
  let out := remove_urls false t in
  (forall n, url_at (drop n out) = false) /\
  remove_urls false out = out /\
  sublist out t /\
  List.filter is_space out = List.filter is_space t.
Proof.
  cbv zeta. split; [apply remove_urls_no_match|].
  split; [apply remove_urls_fixed, remove_urls_no_match|].
  split; [apply remove_urls_sublist | apply remove_urls_spaces].
Qed.

Lemma tag_body_kept (t : text) :
  tag_body t = None -> tag_body (remove_tags 0 t) = None.
Proof.
  induction t as [|c t IH]; intros Hb; [reflexivity|].
  simpl in Hb. destruct (c =? gt_sign) eqn:Hgt; [discriminate|].
  destruct (c =? newline) eqn:Hnl.
  - apply N.eqb_eq in Hnl. subst c. reflexivity.
  - destruct (tag_body t) eqn:Ht; [discriminate|].
    simpl. rewrite Ht.
    destruct (c =? lt_sign); simpl; rewrite Hgt, Hnl, IH; reflexivity.
Qed.

Lemma remove_tags_no_match (t : text) : forall skip n,
  tag_at (drop n (remove_tags skip t)) = false.
Proof.
  induction t as [|c t IH]; intros skip n.
  - simpl. now rewrite drop_nil.
  - simpl. destruct skip as [|skip]; [|apply IH].
    destruct (c =? lt_sign) eqn:Hlt.
    + destruct (tag_body t) eqn:Hb; [apply IH|].
      destruct n as [|n]; [|apply IH]. simpl.
      now rewrite (tag_body_kept _ Hb), andb_false_r.
    + destruct n as [|n]; [|apply IH]. simpl. now rewrite Hlt.
Qed.

Lemma remove_tags_fixed (o : text) :
  (forall n, tag_at (drop n o) = false) -> remove_tags 0 o = o.
Proof.
  induction o as [|c o IH]; intros Hno; [reflexivity|].
  pose proof (Hno 0%nat) as H0. simpl in H0. simpl.
  assert (Hrest : remove_tags 0 o = o) by (apply IH; intros n; exact (Hno (S n))).
  destruct (c =? lt_sign); [|now rewrite Hrest].
  destruct (tag_body o); [discriminate|]. now rewrite Hrest.
Qed.

Lemma remove_tags_newlines (t : text) : forall skip,
  (skip = 0%nat \/ exists n, skip = S n /\ tag_body t = Some n) ->
  List.filter is_newline (remove_tags skip t) = List.filter is_newline t.
Proof.
  unfold is_newline.
  induction t as [|c t IH]; intros skip Hskip; [reflexivity|].
  simpl. destruct Hskip as [-> | (n & -> & Hb)].
  - destruct (c =? lt_sign) eqn:Hlt.
    + apply N.eqb_eq in Hlt. subst c. simpl.
      destruct (tag_body t) as [n|] eqn:Hb.
      * apply IH. right. now exists n.
      * simpl. apply IH. now left.
    + simpl. destruct (c =? newline); [f_equal|]; apply IH; now left.
  - simpl in Hb. destruct (c =? gt_sign) eqn:Hgt.
    + injection Hb as <-. apply N.eqb_eq in Hgt. subst c. simpl. apply IH. now left.
    + destruct (c =? newline) eqn:Hnl; [discriminate|].
      destruct (tag_body t) as [m|] eqn:Ht; [|discriminate].
      injection Hb as <-. apply IH. right. now exists m.
Qed.

Lemma remove_tags_sublist (t : text) : forall skip,
  sublist (remove_tags skip t) t.
Proof.
  induction t as [|c t IH]; intros skip; [constructor|].
  simpl. destruct skip as [|skip]; [|apply sublist_cons, IH].
  destruct (c =? lt_sign); [|apply sublist_skip, IH].
  destruct (tag_body t); [apply sublist_cons, IH | apply sublist_skip, IH].
Qed.

(** X6: after the tags are removed no match of the pattern is left at any
    position of the text, that is, no [<] is followed by a [>] on its line,
    so removing them again changes nothing; only characters are dropped, in
    place, and never a newline. *)
Theorem remove_tags_leaves_no_tag (t : text) :
  let out := remove_tags 0 t in
  (forall n, tag_at (drop n out) = false) /\
  remove_tags 0 out = out /\
  sublist out t /\
  List.filter is_newline out = List.filter is_newline t.
Proof.
  cbv zeta. split; [apply remove_tags_no_match|].
  split; [apply remove_tags_fixed, remove_tags_no_match|].
  split; [apply remove_tags_sublist|].
  apply remove_tags_newlines. now left.
Qed.

End CleaningFacts.

Module PreprocessorFacts.
Import Preprocessor RunSpec.Text TextSpec.
Local Open Scope N_scope.


Lemma upper_to_lower c : in_range 65 90 c = true -> is_lower_az (c + 32) = true.
Proof.
  unfold is_lower_az, in_range. intros Hc.
  apply andb_true_iff in Hc. destruct Hc as [H1 H2].
  apply N.leb_le in H1, H2. apply andb_true_iff. split; apply N.leb_le; lia.
Qed.

(** [text.lower()] on ASCII text: capitals become small letters, one for
    one, and nothing else changes. *)
Lemma lower_from_ascii unicode_lower (t : text) : forall before,
  Forall (fun c => is_ascii c = true) t ->
  lower_from unicode_lower before t = map ascii_lower t.
Proof.
  induction t as [|c t IH]; intros before Ht; [reflexivity|].
  inversion Ht as [|? ? Hc Ht']; subst. simpl.
  rewrite (IH _ Ht'). unfold lower_char, ascii_lower.
  destruct (in_range 65 90 c); [reflexivity|].
  unfold is_ascii in Hc. now rewrite Hc.
Qed.

Lemma url_match_at (s : text) : url_match s -> url_at s = true.
Proof.
  intros (q & x & rest & Hin & Hx & ->).
  apply CleaningFacts.url_at_spec. exists q, x. split; [exact Hin|]. split; [exact Hx|].
  exists rest. now rewrite <- app_assoc.
Qed.



Lemma url_free_spec (t : text) : url_free t = true -> forall n, ~ url_match (drop n t).
Proof.
  intros Hfree n Hm. apply url_match_at in Hm.
  destruct (Nat.lt_ge_cases n (length t)) as [Hlt | Hge].
  - unfold url_free in Hfree. rewrite forallb_forall in Hfree.
    specialize (Hfree n). rewrite in_seq in Hfree.
    rewrite Hm in Hfree. discriminate Hfree. lia.
  - rewrite drop_ge in Hm by exact Hge. discriminate.
Qed.

Lemma plain_char_lower (c : char) :
  plain_char c = true -> is_lower_az (ascii_lower c) || is_space (ascii_lower c) = true.
Proof.
  unfold plain_char, ascii_lower. intros Hc.
  destruct (in_range 65 90 c) eqn:Hup.
  - now rewrite (upper_to_lower c Hup).
  - simpl in Hc. apply orb_true_iff in Hc. destruct Hc as [Hc | Hc].
    + now rewrite Hc.
    + apply andb_true_iff in Hc. destruct Hc as [_ Hc]. rewrite Hc. apply orb_true_r.
Qed.

Lemma plain_char_ascii (c : char) : plain_char c = true -> is_ascii c = true.
Proof.
  unfold plain_char, is_ascii, is_lower_az, in_range. intros Hc.
  apply orb_true_iff in Hc. destruct Hc as [Hc | Hc];
    [apply orb_true_iff in Hc; destruct Hc as [Hc | Hc]|].
  - apply andb_true_iff in Hc. destruct Hc as [_ Hc]. apply N.leb_le in Hc.
    apply N.ltb_lt. lia.
  - apply andb_true_iff in Hc. destruct Hc as [_ Hc]. apply N.leb_le in Hc.
    apply N.ltb_lt. lia.
  - apply andb_true_iff in Hc. now destruct Hc.
Qed.

Lemma remove_symbols_fixed (o : text) : letters_and_spaces o -> remove_symbols o = o.
Proof.
  unfold remove_symbols. induction 1 as [|c o Hc Ho IH]; [reflexivity|].
  simpl. now rewrite Hc, IH.
Qed.

Lemma no_tag_in_letters (o : text) :
  letters_and_spaces o -> forall n, tag_at (drop n o) = false.
Proof.
  intros Ho n. assert (Hd : letters_and_spaces (drop n o)) by now apply Forall_drop.
  destruct (drop n o) as [|c o']; [reflexivity|].
  inversion Hd as [|? ? Hc _]; subst. simpl.
  destruct (N.eqb_spec c lt_sign) as [->|_]; [discriminate Hc | reflexivity].
Qed.

(** A text of letters and ASCII white space in which no URL begins reaches
    the tokenizer with its capitals made small and nothing else changed. *)
Lemma clean_plain unicode_lower (t : text) :
  Forall (fun c => plain_char c = true) t ->
  (forall n, ~ url_match (drop n (map ascii_lower t))) ->
  clean unicode_lower t = map ascii_lower t.
Proof.
  intros Hplain Hfree. unfold clean, lower.
  rewrite lower_from_ascii
    by (eapply List.Forall_impl; [|exact Hplain]; exact plain_char_ascii).
  assert (Hl : letters_and_spaces (map ascii_lower t)).
  { unfold letters_and_spaces. apply List.Forall_map.
    eapply List.Forall_impl; [|exact Hplain]. exact plain_char_lower. }
  rewrite CleaningFacts.remove_urls_fixed.
  - rewrite CleaningFacts.remove_tags_fixed by now apply no_tag_in_letters.
    now apply remove_symbols_fixed.
  - intros n. destruct (url_at (drop n (map ascii_lower t))) eqn:Hu; [|reflexivity].
    destruct (Hfree n). apply CleaningFacts.url_at_spec in Hu.
    destruct Hu as (q & x & Hin & Hx & rest & Hrest).
    exists q, x, rest. split; [exact Hin|]. split; [exact Hx|].
    now rewrite Hrest, <- app_assoc.
Qed.

Section Library.

Variable unicode_lower : text -> char -> text -> text.
Variable word_tokenize : text -> list text.
Variable stop_word : text -> bool.
Variable stem : text -> text.

(** On a text of lowercase letters and white space, the tokens of
    [word_tokenize] are made of lowercase letters. *)
Hypothesis word_tokenize_letters :
  forall t, letters_and_spaces t -> Forall lowercase_word (word_tokenize t).

(** The stem of a word of lowercase letters is made of lowercase letters. *)
Hypothesis stem_letters : forall w, lowercase_word w -> lowercase_word (stem w).


End Library.





(** The condition on the stemmer is needed: one that brings in a digit
    gives a token outside a-z. *)
Example stemmer_outside_alphabet :
  ~ Forall lowercase_word
      (preprocess_text keep_char (split_spaces []) sample_stop_word
         (fun w => w ++ of_string "1") (of_string "cats")).
Proof.
  intros Hall. apply List.Forall_inv in Hall.
  do 4 apply List.Forall_inv_tail in Hall. apply List.Forall_inv in Hall.
  discriminate Hall.
Qed.

(** Plain text passes with its capitals made small. *)
Example clean_plain_run :
  clean keep_char (of_string "Solar Energy in the USA") =
  of_string "solar energy in the usa".
Proof.
  rewrite clean_plain; [reflexivity | repeat constructor |].
  apply url_free_spec. vm_compute. reflexivity.
Qed.

Example sample_preprocess_run :
  sample_preprocess
    (of_string "The Cats and dogs visited https://x.org for 3 days <br/> RUNS") =
  map of_string ["cat"; "dog"; "visited"; "day"; "run"]%string.
Proof. vm_compute. reflexivity. Qed.

Example clean_run :
  clean keep_char
    (of_string "Visit https://Example.com/a?b=1 NOW <b>bold</b> 42 cats & dogs!") =
  of_string "visit  now bold    cats   dogs ".
Proof. vm_compute. reflexivity. Qed.

Example clean_keeps_unclosed_tag :
  clean keep_char (of_string "a < b www.x.y wwwx ww http http:") =
  of_string "a   b   ww http ".
Proof. vm_compute. reflexivity. Qed.

End PreprocessorFacts.

Module DockerFacts.

Import Docker DockerSpec.

Local Open Scope string_scope.
Local Open Scope list_scope.

Section Os.

Context {World : Type} `{Os World}.

Ltac crunch :=
  lazy beta iota zeta delta
    -[Z.eqb contains is_kind execute sleep commands_run sleeps In drop length app
      ps_running ps_all docker_stop docker_rm docker_start docker_run docker_logs curl
      ps_details rule nl container_name image port_text capture_conflict nonzero_exit exit_message
      clean_sequences pretty wait_until_ready max_retries].

Ltac run_step :=
  match goal with
  | |- context [execute ?a ?w] =>
    let rc := fresh "rc" in
    let out := fresh "out" in
    let e := fresh "e" in
    let w' := fresh "w" in
    let E := fresh "E" in
    destruct (execute a w) as [[rc out | e] w'] eqn:E; crunch
  | |- context [(?rc =? 0)%Z] =>
    let E := fresh "E" in destruct (rc =? 0)%Z eqn:E; crunch
  | |- context [contains ?a ?b] =>
    let E := fresh "E" in destruct (contains a b) eqn:E; crunch
  | |- context [is_kind ?k ?e] =>
    first
      [ is_var e; let E := fresh "E" in destruct (is_kind k e) eqn:E
      | let b := eval vm_compute in (is_kind k e) in change (is_kind k e) with b ];
    crunch
  end.

Ltac unfold_script :=
  unfold added, clean, restart, logs, status; unfold stop, start;
  unfold call, check_docker_installed,
    check_docker_running, is_container_running, is_container_exists, try_except,
    subprocess_run, _show_connection_info, print, print_end, emit, return_, raise,
    mbind, mret, M_bind, M_ret;
  crunch.

Ltac new_events :=
  repeat rewrite <- app_assoc; rewrite ?drop_app_length; simpl.

(** Runs the method [m] from the state of the goal, one command at a time. *)
Ltac run m :=
  match goal with
  | st : state _ |- _ =>
    let w := fresh "w" in
    let l := fresh "l" in
    let o := fresh "o" in
    let st' := fresh "st'" in
    let Hrun := fresh "Hrun" in
    destruct st as [w l]; unfold added; cbv zeta;
    destruct (m {| world := w; log := l |}) as [o st'] eqn:Hrun;
    revert Hrun; unfold_script; repeat run_step;
    intros Hrun; injection Hrun as <- <-
  end.

(** X7: [check_docker_running] raises [ValueError] in every state, before
    any command is run: [subprocess.run] refuses [capture_output=True]
    together with [stderr=subprocess.DEVNULL], and the method catches
    [CalledProcessError] only. *)
Theorem check_docker_running_raises (st : state World) :
  check_docker_running st = (Raise capture_conflict, st) /\
  call check_docker_running st = (Raise capture_conflict, st).
Proof. split; reflexivity. Qed.

(** X8: [start] runs no command but [docker --version] and never returns
    [True]. What it does follows from that one command: when the command
    exits with a code other than 0 or fails with [CalledProcessError] or
    [FileNotFoundError], [start] returns [False]; when it fails with
    another exception, [start] raises that exception; and when it exits
    with 0, [start] raises the [ValueError] of [check_docker_running]. *)
Theorem start_never_starts (st : state World) :
  commands_run (added start st) = [docker_version] /\
  fst (start st) <> Return (RBool true) /\
  fst (start st) =
    match fst (execute docker_version (world st)) with
    | Exited rc _ =>
      if (rc =? 0)%Z then Raise capture_conflict else Return (RBool false)
    | Failed e =>
      if is_kind CalledProcessError e || is_kind FileNotFoundError e
      then Return (RBool false) else Raise e
    end.
Proof.
  run (start : M World unit); new_events;
    repeat match goal with
           | E : is_kind _ _ = _ |- _ => rewrite E
           end;
    repeat split; try discriminate; reflexivity.
Qed.

(** X9: [status] never inspects the container: it runs no command but
    [docker --version], and when that command succeeds it raises the
    [ValueError] of [check_docker_running] instead of reporting a status. *)
Theorem status_never_reports (st : state World) :
  commands_run (added status st) = [["docker"; "--version"]] /\
  (forall out w,
     execute ["docker"; "--version"] (world st) = (Exited 0 out, w) ->
     fst (status st) = Raise capture_conflict).
Proof.
  run (status : M World unit); new_events; repeat split; try discriminate; try reflexivity;
    intros out' w' Heq; inversion Heq; subst; try discriminate; reflexivity.
Qed.

Ltac solve_in :=
  simpl;
  repeat match goal with
         | |- _ /\ _ => split
         | |- forall _, _ => intro
         | H : _ \/ _ |- _ => destruct H
         | H : False |- _ => destruct H
         | H : Run _ _ = Run _ _ |- _ => inversion H; subst; clear H
         | H : Print _ _ = Run _ _ |- _ => discriminate H
         | H : Run _ _ = Print _ _ |- _ => discriminate H
         | H : Print _ _ = Print _ _ |- _ => inversion H; subst; clear H
         end;
  try discriminate;
  try (eexists; split; [simpl; tauto | assumption]);
  try (eexists; simpl; tauto).

(** X10: [stop] runs [docker stop] only after [docker ps] has listed the
    container as running, prints that the container is stopped only after
    [docker stop] has exited with 0, and runs no other command. *)
Theorem stop_is_guarded (st : state World) :
  let evs := added stop st in
  (forall r, In (Run docker_stop r) evs ->
     exists out, In (Run ps_running (Exited 0 out)) evs /\
                 contains container_name out = true) /\
  (In (Print "✓ Container stopped" nl) evs ->
     exists out, In (Run docker_stop (Exited 0 out)) evs) /\
  (commands_run evs = [ps_running] \/ commands_run evs = [ps_running; docker_stop]).
Proof.
  run (stop : M World unit); new_events;
    repeat match goal with
           | E : (_ =? 0)%Z = true |- _ => apply Z.eqb_eq in E; subst
           end;
    solve_in; auto.
Qed.

(** X11: [clean] runs [docker rm] only after [docker ps -a] has listed the
    container, prints that the container is removed only after [docker rm]
    has exited with 0, and runs its commands in one of nine orders, in which
    [docker stop] comes before [docker rm] and nothing follows [docker rm]. *)
Theorem clean_is_guarded (st : state World) :
  let evs := added clean st in
  (forall r, In (Run docker_rm r) evs ->
     exists out, In (Run ps_all (Exited 0 out)) evs /\
                 contains container_name out = true) /\
  (In (Print "✓ Container removed" nl) evs ->
     exists out, In (Run docker_rm (Exited 0 out)) evs) /\
  In (commands_run evs) clean_sequences.
Proof.
  run (clean : M World unit); new_events;
    repeat match goal with
           | E : (_ =? 0)%Z = true |- _ => apply Z.eqb_eq in E; subst
           end;
    solve_in; auto 12.
Qed.

(** X12: [logs] runs [docker logs], for the number of lines it is given, only
    after [docker ps -a] has listed the container, and returns whatever the
    return code of [docker logs]. *)
Theorem logs_is_guarded (lines : nat) (st : state World) :
  let evs := added (logs lines) st in
  (commands_run evs = [ps_all] \/ commands_run evs = [ps_all; docker_logs lines]) /\
  (forall r, In (Run (docker_logs lines) r) evs ->
     exists out, In (Run ps_all (Exited 0 out)) evs /\
                 contains container_name out = true) /\
  (forall rc out, In (Run (docker_logs lines) (Exited rc out)) evs ->
     fst (logs lines st) = Val tt).
Proof.
  run (logs lines : M World unit); new_events;
    repeat match goal with
           | E : (_ =? 0)%Z = true |- _ => apply Z.eqb_eq in E; subst
           end;
    solve_in; auto.
Qed.

Lemma commands_run_app (a b : list event) :
  commands_run (a ++ b) = commands_run a ++ commands_run b.
Proof.
  induction a as [|ev a IH]; [reflexivity|].
  destruct ev; simpl; try exact IH. now rewrite IH.
Qed.

Lemma sleeps_app (a b : list event) : sleeps (a ++ b) = (sleeps a + sleeps b)%nat.
Proof.
  induction a as [|ev a IH]; [reflexivity|].
  destruct ev; simpl; try exact IH. now rewrite IH.
Qed.

(** The wait loop, by the events it appends. *)
Lemma wait_until_ready_run (retries : nat) : forall st : state World,
  exists evs,
    log (snd (wait_until_ready retries st)) = log st ++ evs /\
    sleeps evs = length (commands_run evs) /\
    Forall (fun argv => argv = curl) (commands_run evs) /\
    ((fst (wait_until_ready retries st) = Return (RBool true) /\
      (length (commands_run evs) <= retries)%nat /\
      exists pre out post,
        evs = pre ++ Run curl (Exited 0 out) :: post /\
        Forall unanswered pre /\ commands_run post = []) \/
     (fst (wait_until_ready retries st) = Val tt /\
      length (commands_run evs) = retries /\
      Forall unanswered evs)).
Proof.
  induction retries as [|n IH]; intros [w l].
  - exists []. simpl. rewrite app_nil_r.
    split; [reflexivity|]. split; [reflexivity|]. split; [constructor|].
    right. repeat split. constructor.
  - cbn [wait_until_ready].
    unfold mbind, M_bind, time_sleep, try_except, subprocess_run, print_end, emit.
    cbn [capture_output stderr_devnull andb check world log fst snd].
    destruct (execute curl (sleep 2 w)) as [[rc out | e] w'] eqn:E;
      cbn [returncode andb negb];
      [destruct (rc =? 0)%Z eqn:Hrc|].
    + apply Z.eqb_eq in Hrc. subst rc.
      unfold _show_connection_info, print, emit, return_, mbind, M_bind. simpl.
      eexists. split; [repeat rewrite <- app_assoc; reflexivity|]. simpl.
      repeat split; [repeat constructor|]. left.
      split; [reflexivity|]. split; [lia|].
      exists [Sleep 2], out. eexists. split; [reflexivity|]. now repeat constructor.
    + simpl.
      match goal with
      | |- context [wait_until_ready n ?s] =>
        destruct (IH s) as (evs & Hlog & Hs & Hc & Hcase);
        destruct (wait_until_ready n s) as [o st'] eqn:Hw
      end.
      simpl in *. exists ([Sleep 2; Run curl (Exited rc out); Print "." ""] ++ evs).
      rewrite Hlog. repeat rewrite <- app_assoc. split.
      { destruct o; reflexivity. }
      simpl. split; [now rewrite Hs|]. split; [now constructor|].
      destruct Hcase as [(-> & Hle & pre & out' & post & -> & Hpre & Hpost)
                        | (-> & Hlen & Hall)].
      * left. split; [reflexivity|]. split; [lia|].
        exists (Sleep 2 :: Run curl (Exited rc out) :: Print "." "" :: pre), out', post.
        split; [reflexivity|]. split; [|exact Hpost].
        repeat constructor; [|exact Hpre].
        simpl. destruct rc; try exact I. discriminate.
      * right. split; [reflexivity|]. split; [now rewrite Hlen|].
        repeat constructor; [|exact Hall].
        simpl. destruct rc; try exact I. discriminate.
    + simpl.
      match goal with
      | |- context [wait_until_ready n ?s] =>
        destruct (IH s) as (evs & Hlog & Hs & Hc & Hcase);
        destruct (wait_until_ready n s) as [o st'] eqn:Hw
      end.
      simpl in *. exists ([Sleep 2; Run curl (Failed e); Print "." ""] ++ evs).
      rewrite Hlog. repeat rewrite <- app_assoc. split.
      { destruct o; reflexivity. }
      simpl. split; [now rewrite Hs|]. split; [now constructor|].
      destruct Hcase as [(-> & Hle & pre & out' & post & -> & Hpre & Hpost)
                        | (-> & Hlen & Hall)].
      * left. split; [reflexivity|]. split; [lia|].
        exists (Sleep 2 :: Run curl (Failed e) :: Print "." "" :: pre), out', post.
        split; [reflexivity|]. split; [|exact Hpost].
        repeat constructor. exact Hpre.
      * right. split; [reflexivity|]. split; [now rewrite Hlen|].
        repeat constructor. exact Hall.
Qed.

(** X13: the wait loop of [start] never raises, whatever [curl] does: it
    sleeps before each call of [curl], makes at most as many calls as it has
    retries, returns [True] at the first call that exits with 0, and ends
    without a return after exactly that many unanswered calls. *)
Theorem wait_until_ready_bounded (retries : nat) (st : state World) :
  let evs := added (wait_until_ready retries) st in
  sleeps evs = length (commands_run evs) /\
  (length (commands_run evs) <= retries)%nat /\
  Forall (fun argv => argv = curl) (commands_run evs) /\
  ((fst (wait_until_ready retries st) = Return (RBool true) /\
    exists pre out post,
      evs = pre ++ Run curl (Exited 0 out) :: post /\
      Forall unanswered pre /\ commands_run post = []) \/
   (fst (wait_until_ready retries st) = Val tt /\
    length (commands_run evs) = retries /\
    Forall unanswered evs)).
Proof.
  unfold added.
  destruct (wait_until_ready_run retries st) as (evs & Hlog & Hs & Hc & Hcase).
  rewrite Hlog, drop_app_length. cbv zeta.
  split; [exact Hs|]. split; [|split; [exact Hc|]].
  - destruct Hcase as [(_ & Hle & _) | (_ & Hlen & _)]; lia.
  - destruct Hcase as [(Ho & _ & Hex) | Hno]; [left | right]; auto.
Qed.

(** X14: when every [docker] command fails because the executable is
    missing, the methods differ: [start] and [status] print that Docker is
    not installed and return, while [stop], [logs] and [clean], which do
    not make that check, raise the [FileNotFoundError]. *)
Theorem methods_without_docker (st : state World) (e : exn) (lines : nat) :
  exn_kind_of e = FileNotFoundError ->
  (forall argv, hd_error argv = Some "docker" -> fst (execute argv (world st)) = Failed e) ->
  fst (start st) = Return (RBool false) /\
  fst (status st) = Return RNone /\
  In (Print "❌ Docker is not installed or not in PATH" nl) (added start st) /\
  In (Print "❌ Docker is not installed or not in PATH" nl) (added status st) /\
  fst (stop st) = Raise e /\
  fst (logs lines st) = Raise e /\
  fst (clean st) = Raise e.
Proof.
  intros Hk Hmissing. destruct st as [w l].
  assert (Hcpe : is_kind CalledProcessError e = false)
    by (unfold is_kind; now rewrite Hk).
  assert (Hfnf : is_kind FileNotFoundError e = true)
    by (unfold is_kind; now rewrite Hk).
  assert (Hrun : forall argv, hd_error argv = Some "docker" ->
            exists w1, execute argv w = (Failed e, w1)).
  { intros argv Hd. specialize (Hmissing argv Hd). simpl in Hmissing.
    destruct (execute argv w) as [r w1]. simpl in Hmissing. subst r. now exists w1. }
  destruct (Hrun ["docker"; "--version"] eq_refl) as [w1 E1].
  destruct (Hrun ps_running eq_refl) as [w2 E2].
  destruct (Hrun ps_all eq_refl) as [w3 E3].
  unfold_script.
  rewrite ?E1, ?E2, ?E3; crunch; rewrite ?Hcpe, ?Hfnf; crunch.
  new_events. repeat split; auto 8.
Qed.

Section Dispatch.

Variable str_lower : string -> string.

Lemma lookup_command_unknown (command : string) :
  ~ In command command_names -> lookup_command command commands = None.
Proof.
  intros Hn. unfold commands. cbn [lookup_command].
  repeat match goal with
         | |- context [String.eqb ?a command] =>
           destruct (String.eqb_spec a command) as [<-|_];
           [exfalso; apply Hn; simpl; tauto|]
         end.
  reflexivity.
Qed.

(** X15: [main] runs a command only when its first argument, lowercased, is
    one of the six command names; without an argument or with another
    word it prints the usage or the unknown command and runs nothing. *)
Theorem main_runs_known_commands (argv : list string) (st : state World) :
  commands_run (added (main str_lower argv) st) <> [] ->
  exists program argument rest,
    argv = program :: argument :: rest /\ In (str_lower argument) command_names.
Proof.
  intros Hrun. destruct st as [w l].
  destruct argv as [|program [|argument rest]].
  - exfalso. apply Hrun.
    unfold main, added, print, emit, return_, mbind, M_bind; simpl.
    now new_events.
  - exfalso. apply Hrun.
    unfold main, added, print, emit, return_, mbind, M_bind; simpl.
    now new_events.
  - exists program, argument, rest. split; [reflexivity|].
    destruct (In_dec string_dec (str_lower argument) command_names) as [Hin | Hn];
      [exact Hin|].
    exfalso. apply Hrun. unfold main. cbv zeta.
    rewrite (lookup_command_unknown _ Hn).
    unfold added, print, emit, mbind, M_bind; simpl. now new_events.
Qed.

End Dispatch.

(** X16: [restart] never starts the container: after [stop] it runs
    [docker --version] at most, never [docker start] or [docker run], and
    when that command succeeds it raises the [ValueError] of
    [check_docker_running]; a container that was running is left stopped. *)
Theorem restart_never_starts (st : state World) :
  let evs := added restart st in
  In (commands_run evs) restart_sequences /\
  (forall out, In (Run docker_version (Exited 0 out)) evs ->
     fst (restart st) = Raise capture_conflict).
Proof.
  run (restart : M World unit); new_events;
    repeat match goal with
           | E : (_ =? 0)%Z = true |- _ => apply Z.eqb_eq in E; subst
           end;
    solve_in; auto 8.
Qed.

End Os.

Ltac event_at n := apply (nth_error_In _ n); vm_compute; reflexivity.

Lemma start_never_starts_simulated :
  fst (start (boot running_host)) = Raise capture_conflict.
Proof. exact (proj2 (proj2 (start_never_starts (boot running_host)))). Defined.

(** A host on which [docker --version] cannot be run for a reason other
    than a missing executable: [start] raises. *)
Example start_raises_other_failures :
  fst (start (H := forbidden) {| world := tt; log := [] |}) = Raise denied.
Proof. vm_compute. reflexivity. Qed.

Lemma status_never_reports_simulated :
  fst (status (boot running_host)) = Raise capture_conflict.
Proof.
  apply (proj2 (status_never_reports (boot running_host)) "" running_host).
  reflexivity.
Defined.

Lemma stop_is_guarded_simulated :
  exists out, In (Run ps_running (Exited 0 out)) (added stop (boot running_host)) /\
              contains container_name out = true.
Proof.
  apply (proj1 (stop_is_guarded (boot running_host)) (Exited 0 "")).
  event_at 5%nat.
Defined.

Lemma clean_is_guarded_simulated :
  exists out, In (Run ps_all (Exited 0 out)) (added clean (boot running_host)) /\
              contains container_name out = true.
Proof.
  apply (proj1 (clean_is_guarded (boot running_host)) (Exited 0 "")).
  event_at 15%nat.
Defined.

Lemma logs_is_guarded_simulated :
  exists out, In (Run ps_all (Exited 0 out)) (added (logs 50) (boot running_host)) /\
              contains container_name out = true.
Proof.
  apply (proj1 (proj2 (logs_is_guarded 50 (boot running_host))) (Exited 0 "")).
  event_at 4%nat.
Defined.

Lemma restart_never_starts_simulated :
  fst (restart (boot running_host)) = Raise capture_conflict.
Proof.
  apply (proj2 (restart_never_starts (boot running_host)) "").
  event_at 14%nat.
Defined.

Lemma main_runs_known_commands_simulated :
  exists program argument rest,
    ["docker_setup.py"; "STOP"] = program :: argument :: rest /\
    In (ascii_lower argument) command_names.
Proof.
  apply (main_runs_known_commands ascii_lower ["docker_setup.py"; "STOP"]
           (boot running_host)).
  vm_compute. discriminate.
Defined.

Lemma methods_without_docker_simulated :
  let h := {| docker_installed := false; container_exists := true;
              container_running := true; warm_up := 0 |} in
  fst (start (boot h)) = Return (RBool false) /\
  fst (status (boot h)) = Return RNone /\
  In (Print "❌ Docker is not installed or not in PATH" nl) (added start (boot h)) /\
  In (Print "❌ Docker is not installed or not in PATH" nl) (added status (boot h)) /\
  fst (stop (boot h)) = Raise not_installed /\
  fst (logs 50 (boot h)) = Raise not_installed /\
  fst (clean (boot h)) = Raise not_installed.
Proof.
  apply (methods_without_docker (boot _) not_installed 50).
  - reflexivity.
  - intros argv Hd. destruct argv as [|a argv]; [discriminate|].
    simpl in Hd. injection Hd as ->. reflexivity.
Defined.

(** After [restart] the simulated container, which was running, is stopped. *)
Example restart_leaves_container_stopped :
  container_running (world (snd (restart (boot running_host)))) = false.
Proof. vm_compute. reflexivity. Qed.

End DockerFacts.
